(** * Mosquito API: the request/command facade of [mosquito/mapi.py]

    A shallow embedding of class [Mosquito] and of the properties its
    specification states about it.  Methods are state-passing functions
    in a small state-and-exception monad; the [Subscriber] objects
    created by the constructor live in an object store addressed by
    location, so that sharing between a publisher and its subscriber is
    explicit. *)

From Stdlib Require Import ZArith List PrimFloat.
From stdpp Require Import base option list gmap.

Local Open Scope Z_scope.

#[local] Set Warnings "-inexact-float".

(** ** Python values *)

(** Numbers decoded from or encoded into a message are binary64
    floating-point numbers, as the floats of Python are, with the same
    rounded operations. A decoded message is the tuple of its fields. *)
Definition value := list float.

(** [math.pi], the binary64 number nearest to pi. *)
Definition math_pi : float := 0x1.921fb54442d18p+1%float.

(** Exceptions that can leave a method. *)
Inductive error :=
| IOError
| RequestTimeout
| IndexError
| TypeError.

Definition result (A : Type) : Type := error + A.

(** [l[i]] on a tuple, negative indices counting from the end. *)
Definition py_getitem {A} (l : list A) (i : Z) : result A :=
  let n := Z.of_nat (length l) in
  let j := if i <? 0 then i + n else i in
  if (0 <=? j) && (j <? n)
  then match l !! Z.to_nat j with
       | Some x => inr x
       | None => inl IndexError
       end
  else inl IndexError.

(** [bool(t)] on a tuple. *)
Definition py_bool (v : value) : bool :=
  match v with [] => false | _ => true end.

(** ** Messages and frames *)

(** The message types for which the constructor installs a handler. *)
Inductive telemetry :=
| POSITION_BOARD_CONNECTED
| FIRMWARE_VERSION
| ATTITUDE_RADIANS
| GET_VELOCITIES
| GET_MOTOR_NORMAL
| GET_BATTERY_VOLTAGE
| GET_PID_CONSTANTS.

#[global] Instance telemetry_eq_dec : EqDecision telemetry.
Proof. solve_decision. Defined.

(** The serializers of [msppg] are generated code outside this module:
    a frame is identified by the serializer that built it and the
    arguments it was given. *)
Inductive frame :=
| serialize_POSITION_BOARD_CONNECTED_Request
| serialize_FIRMWARE_VERSION_Request
| serialize_ATTITUDE_RADIANS_Request
| serialize_GET_VELOCITIES_Request
| serialize_GET_BATTERY_VOLTAGE_Request
| serialize_GET_MOTOR_NORMAL_Request
| serialize_GET_PID_CONSTANTS_Request
| serialize_WP_ARM_Request
| serialize_WP_DISARM_Request
| serialize_SET_POSITIONING_BOARD (has_position_board : bool)
| serialize_SET_MOSQUITO_VERSION (is_mosquito_90 : bool)
| serialize_ESC_CALIBRATION (code : Z)
| serialize_RC_CALIBRATION (stage : Z)
| serialize_SET_MOTOR_NORMAL (m1 m2 m3 m4 : float)
| serialize_SET_BATTERY_VOLTAGE (voltage : float)
| serialize_SET_LEDS (red green blue : Z)
| serialize_SET_PID_CONSTANTS (gyro_roll_P gyro_roll_I gyro_roll_D
    gyro_pitch_P gyro_pitch_I gyro_pitch_D gyro_yaw_P gyro_yaw_I
    demands_to_rate level_P altHold_P altHold_vel_P altHold_vel_I
    altHold_vel_D min_altitude posHold_vel_P posHold_vel_I posHold_vel_D
    param9 : float)
| serialize_CLEAR_EEPROM (section : Z)
| serialize_SET_EMERGENCY_STOP (code : Z)
| serialize_WP_MISSION_BEGIN (code : Z)
| serialize_WP_TAKE_OFF (height code : Z)
| serialize_WP_LAND (code : Z)
| serialize_WP_HOVER (time code : Z)
| serialize_WP_CHANGE_ALTITUDE (height code : Z)
| serialize_WP_GO_FORWARD (time code : Z)
| serialize_WP_GO_BACKWARD (time code : Z)
| serialize_WP_GO_LEFT (time code : Z)
| serialize_WP_GO_RIGHT (time code : Z)
| serialize_WP_TURN_CCW (angle code : Z)
| serialize_WP_TURN_CW (angle code : Z).

(** The starred call of [serialize_SET_MOTOR_NORMAL] on [values]: the
    tuple is unpacked into the four positional parameters of the
    serializer. *)
Definition star_SET_MOTOR_NORMAL (values : list float) : result frame :=
  match values with
  | [m1; m2; m3; m4] => inr (serialize_SET_MOTOR_NORMAL m1 m2 m3 m4)
  | _ => inl TypeError
  end.

(** The starred call of [serialize_SET_LEDS] on [self.__led_status]. *)
Definition star_SET_LEDS (status : list Z) : result frame :=
  match status with
  | [r; g; b] => inr (serialize_SET_LEDS r g b)
  | _ => inl TypeError
  end.

(** The request frame of each telemetry message. *)
Definition request_frame (t : telemetry) : frame :=
  match t with
  | POSITION_BOARD_CONNECTED => serialize_POSITION_BOARD_CONNECTED_Request
  | FIRMWARE_VERSION => serialize_FIRMWARE_VERSION_Request
  | ATTITUDE_RADIANS => serialize_ATTITUDE_RADIANS_Request
  | GET_VELOCITIES => serialize_GET_VELOCITIES_Request
  | GET_MOTOR_NORMAL => serialize_GET_MOTOR_NORMAL_Request
  | GET_BATTERY_VOLTAGE => serialize_GET_BATTERY_VOLTAGE_Request
  | GET_PID_CONSTANTS => serialize_GET_PID_CONSTANTS_Request
  end.

(** ** Objects *)

Definition loc := nat.

(** Modelled from the spec: class [Subscriber] of [mosquito.notify] is
    not part of this module. Following the specification's Subscription,
    a subscriber holds the latest decoded value (unset at creation) and
    a counter incremented on every publish. *)
Record Subscriber := mkSubscriber {
  latest_value : option value;
  version : nat
}.

Definition new_Subscriber : Subscriber :=
  {| latest_value := None; version := 0 |}.

(** Modelled from the spec: a publish stores the value as the latest one
    and increments the version. *)
Definition notify (v : value) (sub : Subscriber) : Subscriber :=
  {| latest_value := Some v; version := S (version sub) |}.

(** Modelled from the spec: [publisher(sub)] of [mosquito.notify] returns
    a callable bound to the subscriber it was given; calling it publishes
    into that subscriber. *)
Inductive handler := publish (sub : loc).

Definition publisher (sub : loc) : handler := publish sub.

(** The handler slots of the MSP parser used by the constructor. *)
Record Parser := mkParser {
  POSITION_BOARD_CONNECTED_Handler : option handler;
  FIRMWARE_VERSION_Handler : option handler;
  ATTITUDE_RADIANS_Handler : option handler;
  GET_VELOCITIES_Handler : option handler;
  GET_MOTOR_NORMAL_Handler : option handler;
  GET_BATTERY_VOLTAGE_Handler : option handler;
  GET_PID_CONSTANTS_Handler : option handler
}.

Definition new_Parser : Parser :=
  mkParser None None None None None None None.

Definition handler_of (t : telemetry) (p : Parser) : option handler :=
  match t with
  | POSITION_BOARD_CONNECTED => POSITION_BOARD_CONNECTED_Handler p
  | FIRMWARE_VERSION => FIRMWARE_VERSION_Handler p
  | ATTITUDE_RADIANS => ATTITUDE_RADIANS_Handler p
  | GET_VELOCITIES => GET_VELOCITIES_Handler p
  | GET_MOTOR_NORMAL => GET_MOTOR_NORMAL_Handler p
  | GET_BATTERY_VOLTAGE => GET_BATTERY_VOLTAGE_Handler p
  | GET_PID_CONSTANTS => GET_PID_CONSTANTS_Handler p
  end.

(** The attributes of a [Mosquito] instance. *)
Record Mosquito := mkMosquito {
  _parser : Parser;
  __position_board_connected_sub : loc;
  __firmware_version_sub : loc;
  __attitude_sub : loc;
  __velocities_sub : loc;
  __motors_sub : loc;
  __voltage_sub : loc;
  __PID_sub : loc;
  __position_board_connected_pub : handler;
  __firmware_version_pub : handler;
  __attitude_pub : handler;
  __velocities_pub : handler;
  __motors_pub : handler;
  __voltage_pub : handler;
  __PID_pub : handler;
  __motor_values : list float;
  __led_status : list Z;
  __voltage : float;
  __controller_constants : list float
}.

(** The subscriber a getter of message [t] waits on. *)
Definition sub_of (t : telemetry) (m : Mosquito) : loc :=
  match t with
  | POSITION_BOARD_CONNECTED => __position_board_connected_sub m
  | FIRMWARE_VERSION => __firmware_version_sub m
  | ATTITUDE_RADIANS => __attitude_sub m
  | GET_VELOCITIES => __velocities_sub m
  | GET_MOTOR_NORMAL => __motors_sub m
  | GET_BATTERY_VOLTAGE => __voltage_sub m
  | GET_PID_CONSTANTS => __PID_sub m
  end.

(** The handler setters of the parser. *)
Definition set_POSITION_BOARD_CONNECTED_Handler (h : handler) (p : Parser) : Parser :=
  mkParser (Some h) (FIRMWARE_VERSION_Handler p) (ATTITUDE_RADIANS_Handler p)
    (GET_VELOCITIES_Handler p) (GET_MOTOR_NORMAL_Handler p)
    (GET_BATTERY_VOLTAGE_Handler p) (GET_PID_CONSTANTS_Handler p).

Definition set_FIRMWARE_VERSION_Handler (h : handler) (p : Parser) : Parser :=
  mkParser (POSITION_BOARD_CONNECTED_Handler p) (Some h) (ATTITUDE_RADIANS_Handler p)
    (GET_VELOCITIES_Handler p) (GET_MOTOR_NORMAL_Handler p)
    (GET_BATTERY_VOLTAGE_Handler p) (GET_PID_CONSTANTS_Handler p).

Definition set_ATTITUDE_RADIANS_Handler (h : handler) (p : Parser) : Parser :=
  mkParser (POSITION_BOARD_CONNECTED_Handler p) (FIRMWARE_VERSION_Handler p) (Some h)
    (GET_VELOCITIES_Handler p) (GET_MOTOR_NORMAL_Handler p)
    (GET_BATTERY_VOLTAGE_Handler p) (GET_PID_CONSTANTS_Handler p).

Definition set_GET_VELOCITIES_Handler (h : handler) (p : Parser) : Parser :=
  mkParser (POSITION_BOARD_CONNECTED_Handler p) (FIRMWARE_VERSION_Handler p)
    (ATTITUDE_RADIANS_Handler p) (Some h) (GET_MOTOR_NORMAL_Handler p)
    (GET_BATTERY_VOLTAGE_Handler p) (GET_PID_CONSTANTS_Handler p).

Definition set_GET_MOTOR_NORMAL_Handler (h : handler) (p : Parser) : Parser :=
  mkParser (POSITION_BOARD_CONNECTED_Handler p) (FIRMWARE_VERSION_Handler p)
    (ATTITUDE_RADIANS_Handler p) (GET_VELOCITIES_Handler p) (Some h)
    (GET_BATTERY_VOLTAGE_Handler p) (GET_PID_CONSTANTS_Handler p).

Definition set_GET_BATTERY_VOLTAGE_Handler (h : handler) (p : Parser) : Parser :=
  mkParser (POSITION_BOARD_CONNECTED_Handler p) (FIRMWARE_VERSION_Handler p)
    (ATTITUDE_RADIANS_Handler p) (GET_VELOCITIES_Handler p)
    (GET_MOTOR_NORMAL_Handler p) (Some h) (GET_PID_CONSTANTS_Handler p).

Definition set_GET_PID_CONSTANTS_Handler (h : handler) (p : Parser) : Parser :=
  mkParser (POSITION_BOARD_CONNECTED_Handler p) (FIRMWARE_VERSION_Handler p)
    (ATTITUDE_RADIANS_Handler p) (GET_VELOCITIES_Handler p)
    (GET_MOTOR_NORMAL_Handler p) (GET_BATTERY_VOLTAGE_Handler p) (Some h).

(** ** Program state *)

(** What a method call does to the outside: a call of [_send_data] with
    a frame, or a blocking [get_value] on a subscriber. *)
Inductive event :=
| SendData (f : frame)
| GetValue (sub : loc).

(** The instance, the store of subscriber objects, and the environment:
    whether the transport accepts a write, the replies the stream reader
    decodes while the next blocking read waits, and the calls made so
    far. *)
Record State := mkState {
  self : Mosquito;
  heap : gmap loc Subscriber;
  link_up : bool;
  inbox : list (telemetry * value);
  log : list event
}.

(** Methods: state passing with exceptions; the state reached when an
    exception is raised is kept. *)
Definition M (A : Type) : Type := State → result A * State.

#[global] Instance M_ret : MRet M := λ A x s, (inr x, s).

#[global] Instance M_bind : MBind M := λ A B f m s,
  match m s with
  | (inr x, s') => f x s'
  | (inl e, s') => (inl e, s')
  end.

Definition lift {A} (r : result A) : M A := λ s, (r, s).

Definition this : M Mosquito := λ s, (inr (self s), s).

(** Assignments to the cached attributes. *)
Definition with_motor_values (values : list float) (m : Mosquito) : Mosquito :=
  mkMosquito (_parser m)
    (__position_board_connected_sub m) (__firmware_version_sub m) (__attitude_sub m)
    (__velocities_sub m) (__motors_sub m) (__voltage_sub m) (__PID_sub m)
    (__position_board_connected_pub m) (__firmware_version_pub m) (__attitude_pub m)
    (__velocities_pub m) (__motors_pub m) (__voltage_pub m) (__PID_pub m)
    values (__led_status m) (__voltage m) (__controller_constants m).

Definition with_led_status (status : list Z) (m : Mosquito) : Mosquito :=
  mkMosquito (_parser m)
    (__position_board_connected_sub m) (__firmware_version_sub m) (__attitude_sub m)
    (__velocities_sub m) (__motors_sub m) (__voltage_sub m) (__PID_sub m)
    (__position_board_connected_pub m) (__firmware_version_pub m) (__attitude_pub m)
    (__velocities_pub m) (__motors_pub m) (__voltage_pub m) (__PID_pub m)
    (__motor_values m) status (__voltage m) (__controller_constants m).

Definition with_voltage (voltage : float) (m : Mosquito) : Mosquito :=
  mkMosquito (_parser m)
    (__position_board_connected_sub m) (__firmware_version_sub m) (__attitude_sub m)
    (__velocities_sub m) (__motors_sub m) (__voltage_sub m) (__PID_sub m)
    (__position_board_connected_pub m) (__firmware_version_pub m) (__attitude_pub m)
    (__velocities_pub m) (__motors_pub m) (__voltage_pub m) (__PID_pub m)
    (__motor_values m) (__led_status m) voltage (__controller_constants m).

Definition with_controller_constants (constants : list float) (m : Mosquito) : Mosquito :=
  mkMosquito (_parser m)
    (__position_board_connected_sub m) (__firmware_version_sub m) (__attitude_sub m)
    (__velocities_sub m) (__motors_sub m) (__voltage_sub m) (__PID_sub m)
    (__position_board_connected_pub m) (__firmware_version_pub m) (__attitude_pub m)
    (__velocities_pub m) (__motors_pub m) (__voltage_pub m) (__PID_pub m)
    (__motor_values m) (__led_status m) (__voltage m) constants.

Definition assign (f : Mosquito → Mosquito) : M unit := λ s,
  (inr tt, mkState (f (self s)) (heap s) (link_up s) (inbox s) (log s)).

(** A list comprehension whose element expression can raise. *)
Fixpoint for_each {A B} (f : A → result B) (l : list A) : result (list B) :=
  match l with
  | [] => inr []
  | x :: l' =>
      match f x with
      | inl e => inl e
      | inr y =>
          match for_each f l' with
          | inl e => inl e
          | inr ys => inr (y :: ys)
          end
      end
  end.

(** ** Transport and dispatch *)

(** Modelled from the spec: [_send_data] of [MosquitoComms] is not part
    of this module. Following the byte transport of the specification, a
    write either hands the bytes over or fails with [IOError]. *)
Definition _send_data (f : frame) : M unit := λ s,
  let s' := mkState (self s) (heap s) (link_up s) (inbox s) (log s ++ [SendData f]) in
  if link_up s then (inr tt, s') else (inl IOError, s').

(** Calling a handler: the publisher notifies the subscriber it is bound
    to. *)
Definition call_handler (h : handler) (v : value)
    (σ : gmap loc Subscriber) : gmap loc Subscriber :=
  match h with publish sub => alter (notify v) sub σ end.

(** The parser hands a decoded message to the handler set for its type;
    without a handler the message is dropped. *)
Definition dispatch (p : Parser) (t : telemetry) (v : value)
    (σ : gmap loc Subscriber) : gmap loc Subscriber :=
  match handler_of t p with
  | Some h => call_handler h v σ
  | None => σ
  end.

(** The stream reader dispatches the decoded messages in the order in
    which they were received. *)
Fixpoint pump (p : Parser) (frames : list (telemetry * value))
    (σ : gmap loc Subscriber) : gmap loc Subscriber :=
  match frames with
  | [] => σ
  | (t, v) :: rest => pump p rest (dispatch p t v σ)
  end.

(** Modelled from the spec: [Subscriber.get_value] is not part of this
    module. Following the blocking wait of the specification, the call
    waits until the version of the subscriber has advanced past the one
    it had when the wait began, and returns the value then published; if
    the timeout elapses first it fails with [RequestTimeout]. The inbox
    holds the messages decoded before the timeout elapses. *)
Definition get_value (sub : loc) : M value := λ s,
  let σ := pump (_parser (self s)) (inbox s) (heap s) in
  let s' := mkState (self s) σ (link_up s) [] (log s ++ [GetValue sub]) in
  match heap s !! sub, σ !! sub with
  | Some before, Some after =>
      if (version before <? version after)%nat
      then match latest_value after with
           | Some v => (inr v, s')
           | None => (inl TypeError, s')
           end
      else (inl RequestTimeout, s')
  | _, _ => (inl TypeError, s')
  end.

(** ** The constructor *)

(** [Subscriber()]: a new object at a location not yet in use. *)
Definition Subscriber_new (σ : gmap loc Subscriber) : loc * gmap loc Subscriber :=
  let l := fresh (dom σ) in (l, <[l := new_Subscriber]> σ).

(** [Mosquito.__init__], from the store [σ0] of the objects that already
    exist; [up] and [incoming] are the environment the instance starts
    in. The parser created by the base class has no handler set. *)
Definition __init__ (σ0 : gmap loc Subscriber) (up : bool)
    (incoming : list (telemetry * value)) : State :=
  let parser := new_Parser in
  let '(position_board_connected_sub, σ1) := Subscriber_new σ0 in
  let '(firmware_version_sub, σ2) := Subscriber_new σ1 in
  let '(attitude_sub, σ3) := Subscriber_new σ2 in
  let '(velocities_sub, σ4) := Subscriber_new σ3 in
  let '(motors_sub, σ5) := Subscriber_new σ4 in
  let '(voltage_sub, σ6) := Subscriber_new σ5 in
  let '(PID_sub, σ7) := Subscriber_new σ6 in
  let position_board_connected_pub := publisher position_board_connected_sub in
  let firmware_version_pub := publisher firmware_version_sub in
  let attitude_pub := publisher attitude_sub in
  let velocities_pub := publisher velocities_sub in
  let motors_pub := publisher motors_sub in
  let voltage_pub := publisher voltage_sub in
  let PID_pub := publisher PID_sub in
  let parser := set_POSITION_BOARD_CONNECTED_Handler position_board_connected_pub parser in
  let parser := set_FIRMWARE_VERSION_Handler firmware_version_pub parser in
  let parser := set_ATTITUDE_RADIANS_Handler attitude_pub parser in
  let parser := set_GET_VELOCITIES_Handler velocities_pub parser in
  let parser := set_GET_MOTOR_NORMAL_Handler motors_pub parser in
  let parser := set_GET_BATTERY_VOLTAGE_Handler voltage_pub parser in
  let parser := set_GET_PID_CONSTANTS_Handler PID_pub parser in
  mkState
    (mkMosquito parser
       position_board_connected_sub firmware_version_sub attitude_sub
       velocities_sub motors_sub voltage_sub PID_sub
       position_board_connected_pub firmware_version_pub attitude_pub
       velocities_pub motors_pub voltage_pub PID_pub
       (replicate 4 0%float) (replicate 3 0) 0%float (replicate 19 0%float))
    σ7 up incoming [].

(** ** Public methods *)

Definition position_board_connected : M bool :=
  _send_data serialize_POSITION_BOARD_CONNECTED_Request;;
  self ← this;
  v ← get_value (__position_board_connected_sub self);
  mret (py_bool v).

Definition get_firmware_version : M float :=
  _send_data serialize_FIRMWARE_VERSION_Request;;
  self ← this;
  v ← get_value (__firmware_version_sub self);
  lift (py_getitem v 0).

(** [degrees] is [False] when the caller leaves it out. *)
Definition get_attitude (degrees : bool) : M value :=
  _send_data serialize_ATTITUDE_RADIANS_Request;;
  self ← this;
  attitude ← get_value (__attitude_sub self);
  if negb degrees
  then mret attitude
  else mret (map (λ angle, angle * 180 / math_pi)%float attitude).

Definition get_velocities : M value :=
  _send_data serialize_GET_VELOCITIES_Request;;
  self ← this;
  get_value (__velocities_sub self).

Definition get_voltage : M float :=
  _send_data serialize_GET_BATTERY_VOLTAGE_Request;;
  self ← this;
  v ← get_value (__voltage_sub self);
  lift (py_getitem v 0).

Definition get_motors : M value :=
  _send_data serialize_GET_MOTOR_NORMAL_Request;;
  self ← this;
  get_value (__motors_sub self).

Definition get_PID : M value :=
  _send_data serialize_GET_PID_CONSTANTS_Request;;
  self ← this;
  get_value (__PID_sub self).

Definition arm : M unit :=
  _send_data serialize_WP_ARM_Request.

Definition disarm : M unit :=
  _send_data serialize_WP_DISARM_Request.

Definition set_position_board (has_position_board : bool) : M unit :=
  _send_data (serialize_SET_POSITIONING_BOARD has_position_board).

Definition set_mosquito_version (is_mosquito_90 : bool) : M unit :=
  _send_data (serialize_SET_MOSQUITO_VERSION is_mosquito_90).

Definition calibrate_ESCs : M unit :=
  _send_data (serialize_ESC_CALIBRATION 0).

Definition calibrate_transmitter (stage : Z) : M unit :=
  _send_data (serialize_RC_CALIBRATION stage).

Definition set_motors (values : list float) : M unit :=
  assign (with_motor_values values);;
  f ← lift (star_SET_MOTOR_NORMAL values);
  _send_data f.

Definition set_motor (motor : Z) (value : float) : M unit :=
  let motor_idx := motor - 1 in
  self ← this;
  values ← lift (for_each
    (λ i, if bool_decide (i ≠ motor_idx)
          then py_getitem (__motor_values self) i
          else inr value)
    [0; 1; 2; 3]);
  set_motors values.

Definition set_voltage (voltage : float) : M unit :=
  assign (with_voltage voltage);;
  _send_data (serialize_SET_BATTERY_VOLTAGE voltage).

Definition get_motor (motor : Z) : M float :=
  motor_values ← get_motors;
  lift (py_getitem motor_values (motor - 1)).

Definition set_PID (gyro_roll_P gyro_roll_I gyro_roll_D gyro_pitch_P
    gyro_pitch_I gyro_pitch_D gyro_yaw_P gyro_yaw_I demands_to_rate level_P
    altHold_P altHold_vel_P altHold_vel_I altHold_vel_D min_altitude
    posHold_vel_P posHold_vel_I posHold_vel_D param9 : float) : M unit :=
  assign (with_controller_constants [gyro_roll_P; gyro_roll_I; gyro_roll_D;
    gyro_pitch_P; gyro_pitch_I; gyro_pitch_D; gyro_yaw_P; gyro_yaw_I;
    demands_to_rate; level_P; altHold_P; altHold_vel_P; altHold_vel_I;
    altHold_vel_D; min_altitude; posHold_vel_P; posHold_vel_I;
    posHold_vel_D; param9]);;
  _send_data (serialize_SET_PID_CONSTANTS gyro_roll_P gyro_roll_I
    gyro_roll_D gyro_pitch_P gyro_pitch_I gyro_pitch_D gyro_yaw_P
    gyro_yaw_I demands_to_rate level_P altHold_P altHold_vel_P
    altHold_vel_I altHold_vel_D min_altitude posHold_vel_P posHold_vel_I
    posHold_vel_D param9).

Definition set_leds (red green blue : option Z) : M unit :=
  self ← this;
  status ← lift (for_each
    (λ '(idx, value),
       match value with
       | None => py_getitem (__led_status self) idx
       | Some x => inr x
       end)
    [(0, red); (1, green); (2, blue)]);
  assign (with_led_status status);;
  self ← this;
  f ← lift (star_SET_LEDS (__led_status self));
  _send_data f.

Definition clear_EEPROM (section : Z) : M unit :=
  _send_data (serialize_CLEAR_EEPROM section).

Definition stop : M unit :=
  _send_data (serialize_SET_EMERGENCY_STOP 0).

Definition execute_mission : M unit :=
  _send_data (serialize_WP_MISSION_BEGIN 1).

(** [height] is 100 when the caller leaves it out. *)
Definition take_off (height : Z) : M unit :=
  _send_data (serialize_WP_TAKE_OFF height 0).

Definition land : M unit :=
  _send_data (serialize_WP_LAND 0).

Definition hover (time : Z) : M unit :=
  _send_data (serialize_WP_HOVER time 0).

Definition change_height (height : Z) : M unit :=
  _send_data (serialize_WP_CHANGE_ALTITUDE height 0).

Definition move_forward (time : Z) : M unit :=
  _send_data (serialize_WP_GO_FORWARD time 0).

Definition move_backwards (time : Z) : M unit :=
  _send_data (serialize_WP_GO_BACKWARD time 0).

Definition move_left (time : Z) : M unit :=
  _send_data (serialize_WP_GO_LEFT time 0).

Definition move_right (time : Z) : M unit :=
  _send_data (serialize_WP_GO_RIGHT time 0).

Definition turn (angle : Z) : M unit :=
  if angle >? 0
  then _send_data (serialize_WP_TURN_CCW angle 0)
  else _send_data (serialize_WP_TURN_CW angle 0).

(** ** Calls by name *)

(** The telemetry getters, with their arguments. *)
Inductive getter :=
| call_position_board_connected
| call_get_firmware_version
| call_get_attitude (degrees : bool)
| call_get_velocities
| call_get_voltage
| call_get_motors
| call_get_PID.

(** What a getter returns. *)
Inductive returned :=
| Bool (b : bool)
| Number (q : float)
| Tuple (v : value).

Definition run_getter (g : getter) : M returned :=
  match g with
  | call_position_board_connected => b ← position_board_connected; mret (Bool b)
  | call_get_firmware_version => q ← get_firmware_version; mret (Number q)
  | call_get_attitude degrees => v ← get_attitude degrees; mret (Tuple v)
  | call_get_velocities => v ← get_velocities; mret (Tuple v)
  | call_get_voltage => q ← get_voltage; mret (Number q)
  | call_get_motors => v ← get_motors; mret (Tuple v)
  | call_get_PID => v ← get_PID; mret (Tuple v)
  end.

(** The message a getter asks for. *)
Definition telemetry_of (g : getter) : telemetry :=
  match g with
  | call_position_board_connected => POSITION_BOARD_CONNECTED
  | call_get_firmware_version => FIRMWARE_VERSION
  | call_get_attitude _ => ATTITUDE_RADIANS
  | call_get_velocities => GET_VELOCITIES
  | call_get_voltage => GET_BATTERY_VOLTAGE
  | call_get_motors => GET_MOTOR_NORMAL
  | call_get_PID => GET_PID_CONSTANTS
  end.

(** The command methods, with their arguments. *)
Inductive command :=
| call_arm
| call_disarm
| call_set_position_board (has_position_board : bool)
| call_set_mosquito_version (is_mosquito_90 : bool)
| call_calibrate_ESCs
| call_calibrate_transmitter (stage : Z)
| call_stop
| call_execute_mission
| call_take_off (height : Z)
| call_land
| call_hover (time : Z)
| call_change_height (height : Z)
| call_move_forward (time : Z)
| call_move_backwards (time : Z)
| call_move_left (time : Z)
| call_move_right (time : Z)
| call_turn (angle : Z)
| call_clear_EEPROM (section : Z).

Definition run_command (c : command) : M unit :=
  match c with
  | call_arm => arm
  | call_disarm => disarm
  | call_set_position_board b => set_position_board b
  | call_set_mosquito_version b => set_mosquito_version b
  | call_calibrate_ESCs => calibrate_ESCs
  | call_calibrate_transmitter stage => calibrate_transmitter stage
  | call_stop => stop
  | call_execute_mission => execute_mission
  | call_take_off height => take_off height
  | call_land => land
  | call_hover time => hover time
  | call_change_height height => change_height height
  | call_move_forward time => move_forward time
  | call_move_backwards time => move_backwards time
  | call_move_left time => move_left time
  | call_move_right time => move_right time
  | call_turn angle => turn angle
  | call_clear_EEPROM section => clear_EEPROM section
  end.

(** ** Predicates used in the statements *)

(** An instance as the constructor leaves it: the seven subscribers are
    distinct objects of the store, and the handler of each message is the
    publisher bound to the subscriber of that message. *)
Record wf (s : State) : Prop := mk_wf {
  wf_distinct : ∀ t t', sub_of t (self s) = sub_of t' (self s) → t = t';
  wf_allocated : ∀ t, is_Some (heap s !! sub_of t (self s));
  wf_wired : ∀ t, handler_of t (_parser (self s)) = Some (publisher (sub_of t (self s)))
}.

(** The values of message [t] among decoded messages, in order. *)
Fixpoint values_of (t : telemetry) (frames : list (telemetry * value)) : list value :=
  match frames with
  | [] => []
  | (t', v) :: rest =>
      if decide (t' = t) then v :: values_of t rest else values_of t rest
  end.

(** Publishing a sequence of values into one subscriber. *)
Definition publish_all (vs : list value) (sub : Subscriber) : Subscriber :=
  foldl (λ b v, notify v b) sub vs.

(** The events a call added to the log. *)
Definition trace {A} (m : M A) (s : State) : list event :=
  drop (length (log s)) (log (m s).2).

(** The order of the specification read on a trace: a subscriber is
    accessed before the request is sent. *)
Definition subscriber_read_before_send (tr : list event) : Prop :=
  ∃ pre f post sub, tr = pre ++ SendData f :: post ∧ GetValue sub ∈ pre.

(** The order of the code read on a trace: the request is sent first and
    the only access to a subscriber is the blocking read after it. *)
Definition send_then_wait (t : telemetry) (sub : loc) (up : bool)
    (tr : list event) : Prop :=
  tr = if up then [SendData (request_frame t); GetValue sub]
       else [SendData (request_frame t)].

(** The state a blocking read on [sub] leaves. *)
Definition after_wait (sub : loc) (s : State) : State :=
  mkState (self s) (pump (_parser (self s)) (inbox s) (heap s)) (link_up s) []
    (log s ++ [GetValue sub]).

(** A step that keeps the subscriber attributes, the parser and the
    objects of the store. *)
Definition stable (s s' : State) : Prop :=
  (∀ t, sub_of t (self s') = sub_of t (self s)) ∧
  _parser (self s') = _parser (self s) ∧
  (∀ l, is_Some (heap s !! l) → is_Some (heap s' !! l)).

Definition preserves {A} (m : M A) : Prop := ∀ s, stable s (m s).2.

(** The state a call of [_send_data] with [f] leaves. *)
Definition after_send (f : frame) (s : State) : State :=
  mkState (self s) (heap s) (link_up s) (inbox s) (log s ++ [SendData f]).

(** The two statements every getter begins with: send the request of
    [t], then read the subscriber of [t]. *)
Definition fetch (t : telemetry) : M value :=
  _send_data (request_frame t);;
  self ← this;
  get_value (sub_of t self).

(** What a getter makes of the value it has read. *)
Definition convert (g : getter) (v : value) : result returned :=
  match g with
  | call_position_board_connected => inr (Bool (py_bool v))
  | call_get_firmware_version | call_get_voltage =>
      match py_getitem v 0 with
      | inr q => inr (Number q)
      | inl e => inl e
      end
  | call_get_attitude degrees =>
      if negb degrees then inr (Tuple v)
      else inr (Tuple (map (λ angle, angle * 180 / math_pi)%float v))
  | call_get_velocities | call_get_motors | call_get_PID => inr (Tuple v)
  end.

(** The cached tuples have the arity of their messages: four motor
    values and three LED states. *)
Definition caches_ok (s : State) : Prop :=
  length (__motor_values (self s)) = 4%nat ∧
  length (__led_status (self s)) = 3%nat.

(** ** Sequences of calls *)

(** A call of any public method, with its arguments. *)
Inductive call :=
| do_getter (g : getter)
| do_command (c : command)
| do_set_motor (motor : Z) (value : float)
| do_set_motors (values : list float)
| do_set_voltage (voltage : float)
| do_get_motor (motor : Z)
| do_set_PID (k1 k2 k3 k4 k5 k6 k7 k8 k9 k10 k11 k12 k13 k14 k15 k16 k17
    k18 k19 : float)
| do_set_leds (red green blue : option Z).

(** The state a call leaves, whether it returns or raises. *)
Definition run_call (c : call) (s : State) : State :=
  match c with
  | do_getter g => (run_getter g s).2
  | do_command c => (run_command c s).2
  | do_set_motor motor value => (set_motor motor value s).2
  | do_set_motors values => (set_motors values s).2
  | do_set_voltage voltage => (set_voltage voltage s).2
  | do_get_motor motor => (get_motor motor s).2
  | do_set_PID k1 k2 k3 k4 k5 k6 k7 k8 k9 k10 k11 k12 k13 k14 k15 k16 k17
      k18 k19 =>
      (set_PID k1 k2 k3 k4 k5 k6 k7 k8 k9 k10 k11 k12 k13 k14 k15 k16 k17
         k18 k19 s).2
  | do_set_leds red green blue => (set_leds red green blue s).2
  end.

(** What happens to an instance: a call by the application, or a move
    of the environment: the stream reader dispatches messages while no
    getter waits, messages are on their way for the next wait, or the
    transport goes up or down. *)
Inductive step :=
| Call (c : call)
| Publish (frames : list (telemetry * value))
| Incoming (frames : list (telemetry * value))
| Link (up : bool).

Definition run_step (st : step) (s : State) : State :=
  match st with
  | Call c => run_call c s
  | Publish frames =>
      mkState (self s) (pump (_parser (self s)) frames (heap s))
        (link_up s) (inbox s) (log s)
  | Incoming frames => mkState (self s) (heap s) (link_up s) frames (log s)
  | Link up => mkState (self s) (heap s) up (inbox s) (log s)
  end.

Definition run_steps (steps : list step) (s : State) : State :=
  foldl (λ s st, run_step st s) s steps.


(** The LED argument of two successive calls taken as one. *)
Definition later_or (later earlier : option Z) : option Z :=
  match later with
  | Some x => Some x
  | None => earlier
  end.

(** The cached attributes, and the one a call assigns, if any. *)
Inductive cache :=
| motor_values_cache
| led_status_cache
| voltage_cache
| controller_constants_cache.

Definition assigned_by (c : call) : option cache :=
  match c with
  | do_set_motor _ _ | do_set_motors _ => Some motor_values_cache
  | do_set_leds _ _ _ => Some led_status_cache
  | do_set_voltage _ => Some voltage_cache
  | do_set_PID _ _ _ _ _ _ _ _ _ _ _ _ _ _ _ _ _ _ _ =>
      Some controller_constants_cache
  | do_getter _ | do_command _ | do_get_motor _ => None
  end.

(** The cached attributes other than [k] are the same in two
    instances. *)
Definition same_caches_but (k : option cache) (m m' : Mosquito) : Prop :=
  (k ≠ Some motor_values_cache → __motor_values m' = __motor_values m) ∧
  (k ≠ Some led_status_cache → __led_status m' = __led_status m) ∧
  (k ≠ Some voltage_cache → __voltage m' = __voltage m) ∧
  (k ≠ Some controller_constants_cache →
   __controller_constants m' = __controller_constants m).

(** * Properties *)

(** ** Dispatch *)

Lemma publish_all_version vs sub :
  version (publish_all vs sub) = (version sub + length vs)%nat.
Proof.
  unfold publish_all. revert sub.
  induction vs as [|v vs IH]; intros sub; simpl.
  - lia.
  - rewrite IH. simpl. lia.
Qed.

Lemma publish_all_latest vs sub :
  latest_value (publish_all vs sub) =
  match last vs with Some v => Some v | None => latest_value sub end.
Proof.
  unfold publish_all. revert sub.
  induction vs as [|v vs IH]; intros sub; [done|].
  simpl foldl. rewrite IH, last_cons. by destruct (last vs).
Qed.

Lemma values_of_elem t v frames :
  v ∈ values_of t frames ↔ (t, v) ∈ frames.
Proof.
  induction frames as [|[t' v'] rest IH]; simpl.
  - by rewrite !elem_of_nil.
  - rewrite (elem_of_cons rest). case_decide as Ht.
    + subst t'. rewrite elem_of_cons, IH.
      split; (intros [H|H]; [left; congruence | by right]).
    + rewrite IH. split; [by right|].
      intros [H|H]; [congruence | done].
Qed.

Lemma values_of_nil t frames :
  t ∉ frames.*1 → values_of t frames = [].
Proof.
  induction frames as [|[t' v'] rest IH]; [done|].
  simpl. rewrite not_elem_of_cons. intros [Hne Hrest].
  case_decide; [congruence | auto].
Qed.

Section wired.
(** A parser whose handlers are the publishers of distinct
    subscribers. *)
Variable p : Parser.
Variable m : Mosquito.
Hypothesis distinct : ∀ t t', sub_of t m = sub_of t' m → t = t'.
Hypothesis wired : ∀ t, handler_of t p = Some (publisher (sub_of t m)).

Lemma dispatch_own t v σ :
  dispatch p t v σ !! sub_of t m = notify v <$> σ !! sub_of t m.
Proof.
  unfold dispatch. rewrite wired. simpl. apply lookup_alter_eq.
Qed.

Lemma dispatch_other t t' v σ :
  t ≠ t' → dispatch p t v σ !! sub_of t' m = σ !! sub_of t' m.
Proof.
  intros Hne. unfold dispatch. rewrite wired. simpl.
  apply lookup_alter_ne. intros Heq. apply Hne. by apply distinct.
Qed.

Lemma dispatch_outside t v σ l :
  (∀ t', l ≠ sub_of t' m) → dispatch p t v σ !! l = σ !! l.
Proof.
  intros Hl. unfold dispatch. rewrite wired. simpl.
  apply lookup_alter_ne. intros Heq. by apply (Hl t).
Qed.

(** What the stream reader does to one subscriber is to publish, in
    order, the values of its own message. *)
Lemma pump_lookup t frames σ :
  pump p frames σ !! sub_of t m =
  publish_all (values_of t frames) <$> σ !! sub_of t m.
Proof.
  revert σ. induction frames as [|[t' v] rest IH]; intros σ; simpl.
  - by destruct (σ !! sub_of t m).
  - rewrite IH. case_decide as Ht.
    + subst t'. rewrite dispatch_own.
      by destruct (σ !! sub_of t m).
    + by rewrite dispatch_other.
Qed.

Lemma pump_outside frames σ l :
  (∀ t', l ≠ sub_of t' m) → pump p frames σ !! l = σ !! l.
Proof.
  intros Hl. revert σ.
  induction frames as [|[t' v] rest IH]; intros σ; simpl; [done|].
  by rewrite IH, dispatch_outside.
Qed.
End wired.

(** ** The blocking read *)

Lemma get_value_state sub s : (get_value sub s).2 = after_wait sub s.
Proof.
  unfold get_value, after_wait.
  repeat case_match; done.
Qed.

(** The blocking read on the subscriber of [t] returns the last value of
    [t] decoded during the wait, and times out when there is none. *)
Lemma get_value_spec t s :
  wf s →
  (get_value (sub_of t (self s)) s).1 =
  match last (values_of t (inbox s)) with
  | Some v => inr v
  | None => inl RequestTimeout
  end.
Proof.
  intros [Hd Ha Hw]. unfold get_value.
  rewrite (pump_lookup _ _ Hd Hw).
  destruct (Ha t) as [b Hb]. rewrite Hb. simpl.
  rewrite publish_all_version, publish_all_latest.
  destruct (values_of t (inbox s)) as [|v vs] eqn:Hvs.
  - simpl. replace (version b + 0)%nat with (version b) by lia.
    by rewrite Nat.ltb_irrefl.
  - assert (Hlt : (version b <? version b + length (v :: vs))%nat = true)
      by (apply Nat.ltb_lt; simpl; lia).
    rewrite Hlt.
    destruct (last (v :: vs)) as [w|] eqn:Hlast; [done|].
    by apply last_None in Hlast.
Qed.

(** ** The constructor establishes the invariant *)

Lemma Subscriber_new_spec σ l σ' :
  Subscriber_new σ = (l, σ') →
  is_Some (σ' !! l) ∧
  ∀ l', is_Some (σ !! l') → l ≠ l' ∧ is_Some (σ' !! l').
Proof.
  unfold Subscriber_new. intros [= <- <-]. split.
  - rewrite lookup_insert_eq. by eexists.
  - intros l' Hl'.
    assert (Hne : fresh (dom σ) ≠ l').
    { intros <-. apply (is_fresh (dom σ)). by apply elem_of_dom. }
    split; [done|]. by rewrite lookup_insert_ne.
Qed.

Ltac allocate E :=
  let Hnew := fresh "Hnew" in
  let Hold := fresh "Hold" in
  destruct (Subscriber_new_spec _ _ _ E) as [Hnew Hold];
  repeat match goal with
  | H : is_Some (?σ !! ?l) |- _ =>
      match type of Hold with
      | ∀ l', is_Some (σ !! l') → _ =>
          let N := fresh "Hne" in
          let A := fresh "Halloc" in
          destruct (Hold l H) as [N A]; clear H
      end
  end;
  clear Hold.

Lemma wf_init σ0 up incoming : wf (__init__ σ0 up incoming).
Proof.
  unfold __init__.
  destruct (Subscriber_new σ0) as [l1 σ1] eqn:E1.
  destruct (Subscriber_new σ1) as [l2 σ2] eqn:E2.
  destruct (Subscriber_new σ2) as [l3 σ3] eqn:E3.
  destruct (Subscriber_new σ3) as [l4 σ4] eqn:E4.
  destruct (Subscriber_new σ4) as [l5 σ5] eqn:E5.
  destruct (Subscriber_new σ5) as [l6 σ6] eqn:E6.
  destruct (Subscriber_new σ6) as [l7 σ7] eqn:E7.
  allocate E1. allocate E2. allocate E3. allocate E4.
  allocate E5. allocate E6. allocate E7.
  split; simpl.
  - intros t t' Heq.
    destruct t, t'; simpl in Heq; first [reflexivity | exfalso; congruence].
  - intros t. destruct t; simpl; assumption.
  - intros t. destruct t; reflexivity.
Qed.

(** ** The invariant is kept by every method *)


Lemma stable_refl s : stable s s.
Proof. by repeat split. Qed.

Lemma stable_trans s1 s2 s3 : stable s1 s2 → stable s2 s3 → stable s1 s3.
Proof.
  intros (Hs & Hp & Hh) (Hs' & Hp' & Hh'). repeat split.
  - intros t. by rewrite Hs', Hs.
  - by rewrite Hp', Hp.
  - auto.
Qed.

Lemma stable_wf s s' : stable s s' → wf s → wf s'.
Proof.
  intros (Hs & Hp & Hh) [Hd Ha Hw]. split.
  - intros t t'. rewrite !Hs. apply Hd.
  - intros t. rewrite Hs. auto.
  - intros t. rewrite Hp, Hs. apply Hw.
Qed.

Lemma pump_is_Some p frames σ l :
  is_Some (σ !! l) → is_Some (pump p frames σ !! l).
Proof.
  revert σ. induction frames as [|[t v] rest IH]; intros σ Hl; [done|].
  simpl. apply IH. unfold dispatch.
  destruct (handler_of t p) as [[sub]|]; [|done].
  simpl. by apply lookup_alter_is_Some.
Qed.

Create HintDb preserves.

Lemma preserves_ret {A} (x : A) : preserves (mret x).
Proof. intros s. apply stable_refl. Qed.

Lemma preserves_bind {A B} (m : M A) (f : A → M B) :
  preserves m → (∀ x, preserves (f x)) → preserves (m ≫= f).
Proof.
  intros Hm Hf s. unfold mbind, M_bind.
  specialize (Hm s). destruct (m s) as [[e|x] s1]; simpl in *; [done|].
  eapply stable_trans; [exact Hm | apply Hf].
Qed.

Lemma preserves_lift {A} (r : result A) : preserves (lift r).
Proof. intros s. apply stable_refl. Qed.

Lemma preserves_this : preserves this.
Proof. intros s. apply stable_refl. Qed.

Lemma preserves_send_data f : preserves (_send_data f).
Proof. intros s. unfold _send_data. by destruct (link_up s). Qed.

Lemma preserves_get_value sub : preserves (get_value sub).
Proof.
  intros s. rewrite get_value_state. repeat split.
  simpl. apply pump_is_Some.
Qed.

Lemma preserves_assign_motor_values values :
  preserves (assign (with_motor_values values)).
Proof. intros s. repeat split. by intros []. Qed.

Lemma preserves_assign_led_status status :
  preserves (assign (with_led_status status)).
Proof. intros s. repeat split. by intros []. Qed.

Lemma preserves_assign_voltage voltage :
  preserves (assign (with_voltage voltage)).
Proof. intros s. repeat split. by intros []. Qed.

Lemma preserves_assign_controller_constants constants :
  preserves (assign (with_controller_constants constants)).
Proof. intros s. repeat split. by intros []. Qed.

#[local] Hint Resolve preserves_ret preserves_lift preserves_this
  preserves_send_data preserves_get_value preserves_assign_motor_values
  preserves_assign_led_status preserves_assign_voltage
  preserves_assign_controller_constants : preserves.

Ltac preserves_tac :=
  repeat first
    [ apply preserves_bind; [|intros ?]
    | progress auto with preserves
    | match goal with |- preserves (if ?b then _ else _) => destruct b end ].

Lemma preserves_run_getter g : preserves (run_getter g).
Proof.
  destruct g; unfold run_getter, position_board_connected,
    get_firmware_version, get_attitude, get_velocities, get_voltage,
    get_motors, get_PID; preserves_tac.
Qed.

Lemma preserves_run_command c : preserves (run_command c).
Proof.
  destruct c; unfold run_command, arm, disarm, set_position_board,
    set_mosquito_version, calibrate_ESCs, calibrate_transmitter, stop,
    execute_mission, take_off, land, hover, change_height, move_forward,
    move_backwards, move_left, move_right, turn, clear_EEPROM;
    preserves_tac.
Qed.

Lemma preserves_set_motors values : preserves (set_motors values).
Proof. unfold set_motors. preserves_tac. Qed.

Lemma preserves_set_motor motor value : preserves (set_motor motor value).
Proof. unfold set_motor. preserves_tac. Qed.

Lemma preserves_set_voltage voltage : preserves (set_voltage voltage).
Proof. unfold set_voltage. preserves_tac. Qed.

Lemma preserves_set_leds red green blue : preserves (set_leds red green blue).
Proof. unfold set_leds. preserves_tac. Qed.

Lemma preserves_set_PID k1 k2 k3 k4 k5 k6 k7 k8 k9 k10 k11 k12 k13 k14 k15
    k16 k17 k18 k19 :
  preserves
    (set_PID k1 k2 k3 k4 k5 k6 k7 k8 k9 k10 k11 k12 k13 k14 k15 k16 k17 k18 k19).
Proof. unfold set_PID. preserves_tac. Qed.

Lemma preserves_get_motor motor : preserves (get_motor motor).
Proof. unfold get_motor. preserves_tac. Qed.

(** ** The shape of a getter *)

Lemma send_data_eq f s :
  _send_data f s =
  (if link_up s then inr tt else inl IOError, after_send f s).
Proof. unfold _send_data, after_send. by destruct (link_up s). Qed.

Lemma fetch_eq t s :
  fetch t s =
  if link_up s
  then get_value (sub_of t (self s)) (after_send (request_frame t) s)
  else (inl IOError, after_send (request_frame t) s).
Proof.
  unfold fetch, mbind, M_bind. rewrite send_data_eq.
  destruct (link_up s); [|done].
  unfold this. simpl. by destruct (get_value _ _) as [[?|?] ?].
Qed.

(** Every getter is [fetch] on its own message followed by a conversion
    of the value read. *)
Lemma run_getter_fetch g s :
  run_getter g s = (v ← fetch (telemetry_of g); lift (convert g v)) s.
Proof.
  unfold mbind, M_bind. rewrite fetch_eq.
  destruct g; simpl; unfold position_board_connected, get_firmware_version,
    get_attitude, get_velocities, get_voltage, get_motors, get_PID,
    mbind, M_bind, mret, M_ret, this, lift;
    rewrite send_data_eq; destruct (link_up s); simpl; try done;
    destruct (get_value _ _) as [[e|v] s1]; simpl; try done;
    repeat case_match; simplify_eq; done.
Qed.

Lemma fetch_state t s :
  (fetch t s).2 =
  if link_up s
  then after_wait (sub_of t (self s)) (after_send (request_frame t) s)
  else after_send (request_frame t) s.
Proof.
  rewrite fetch_eq. destruct (link_up s); [|done].
  by rewrite get_value_state.
Qed.

Lemma wf_after_send f s : wf s → wf (after_send f s).
Proof. intros [Hd Ha Hw]. by split. Qed.

Lemma fetch_result t s :
  wf s →
  (fetch t s).1 =
  if link_up s
  then match last (values_of t (inbox s)) with
       | Some v => inr v
       | None => inl RequestTimeout
       end
  else inl IOError.
Proof.
  intros Hwf. rewrite fetch_eq. destruct (link_up s); [|done].
  apply (get_value_spec t (after_send (request_frame t) s)).
  by apply wf_after_send.
Qed.

Lemma run_getter_state g s :
  (run_getter g s).2 = (fetch (telemetry_of g) s).2.
Proof.
  rewrite run_getter_fetch. unfold mbind, M_bind, lift.
  by destruct (fetch _ s) as [[e|v] s1].
Qed.

Lemma run_getter_result g s :
  (run_getter g s).1 =
  match (fetch (telemetry_of g) s).1 with
  | inr v => convert g v
  | inl e => inl e
  end.
Proof.
  rewrite run_getter_fetch. unfold mbind, M_bind, lift.
  by destruct (fetch _ s) as [[e|v] s1].
Qed.

Lemma trace_app {A} (m : M A) s tr :
  log (m s).2 = log s ++ tr → trace m s = tr.
Proof. unfold trace. intros ->. by rewrite drop_app_length. Qed.

(** ** Order of the steps of a getter *)

(** The events of a getter: the send of its request and, when the write
    succeeded, the blocking read on its subscriber. *)
Lemma run_getter_trace g s :
  trace (run_getter g) s =
  if link_up s
  then [SendData (request_frame (telemetry_of g));
        GetValue (sub_of (telemetry_of g) (self s))]
  else [SendData (request_frame (telemetry_of g))].
Proof.
  apply trace_app. rewrite run_getter_state, fetch_state.
  destruct (link_up s); simpl; [|done].
  by rewrite <- app_assoc.
Qed.


(** C1, as the code has it: every telemetry getter first calls
    [_send_data] with the request frame of its message and only then,
    when the write succeeded, makes its one access to a subscriber, the
    blocking [get_value] on the subscriber of that message. Nothing is
    read from the subscriber before the request is sent. *)
Theorem getter_sends_then_waits g s :
  send_then_wait (telemetry_of g) (sub_of (telemetry_of g) (self s))
    (link_up s) (trace (run_getter g) s).
Proof. unfold send_then_wait. apply run_getter_trace. Qed.

(** C1 as stated fails: in a call of [get_attitude] on a new instance
    that receives one attitude reply, no subscriber is accessed before
    the request is sent. *)
Lemma get_attitude_sends_first :
  ¬ subscriber_read_before_send
      (trace (get_attitude false)
         (__init__ ∅ true [(ATTITUDE_RADIANS, [0%float; 0%float; 0%float])])).
Proof.
  assert (Htr : trace (get_attitude false)
            (__init__ ∅ true [(ATTITUDE_RADIANS, [0%float; 0%float; 0%float])])
          = [SendData serialize_ATTITUDE_RADIANS_Request; GetValue 2%nat])
    by (vm_compute; reflexivity).
  rewrite Htr. intros (pre & f & post & sub & Heq & Hin).
  destruct pre as [|e pre]; [by apply elem_of_nil in Hin|].
  simpl in Heq. injection Heq as <- Heq.
  apply elem_of_cons in Hin as [Hin|Hin]; [discriminate|].
  destruct pre as [|e' pre]; [by apply elem_of_nil in Hin|].
  simpl in Heq. injection Heq as <- Heq.
  by destruct pre.
Qed.

Lemma get_attitude_fetch degrees s :
  get_attitude degrees s =
  (attitude ← fetch ATTITUDE_RADIANS;
   mret (if negb degrees then attitude
         else map (λ angle, angle * 180 / math_pi)%float attitude)) s.
Proof.
  unfold get_attitude, fetch, mbind, M_bind, this, mret, M_ret.
  destruct (_send_data _ s) as [[e|[]] s1]; [done|].
  destruct (get_value _ s1) as [[e|v] s2]; [done|].
  by destruct degrees.
Qed.

Lemma get_voltage_fetch s :
  get_voltage s = (v ← fetch GET_BATTERY_VOLTAGE; lift (py_getitem v 0)) s.
Proof.
  unfold get_voltage, fetch, mbind, M_bind, this.
  destruct (_send_data _ s) as [[e|[]] s1]; [done|].
  by destruct (get_value _ s1) as [[e|v] s2].
Qed.

Lemma get_motors_fetch s : get_motors s = fetch GET_MOTOR_NORMAL s.
Proof. reflexivity. Qed.

Lemma py_getitem_lookup {A} (l : list A) (i : Z) x :
  0 ≤ i → l !! Z.to_nat i = Some x → py_getitem l i = inr x.
Proof.
  intros Hi Hx. unfold py_getitem.
  assert (Hlt : (Z.to_nat i < length l)%nat) by by eapply lookup_lt_Some.
  destruct (i <? 0) eqn:Hneg; [lia|].
  destruct (0 <=? i) eqn:H0; [|lia].
  destruct (i <? Z.of_nat (length l)) eqn:Hn; [|lia].
  simpl. by rewrite Hx.
Qed.

Lemma py_getitem_first {A} (l : list A) x :
  py_getitem l 0 = inr x → l !! 0%nat = Some x.
Proof.
  unfold py_getitem. simpl.
  destruct (0 <? Z.of_nat (length l)); [|done].
  change (Z.to_nat 0) with 0%nat.
  by destruct (l !! 0%nat); intros [= ->].
Qed.

(** ** Timeouts *)

(** C2: when the request was written and no value of the getter's
    message is published during the wait, the getter fails with
    [RequestTimeout]; whatever a getter returns is made from a value
    published during the wait, and the voltage [get_voltage] returns is
    the first field of a published voltage message, never a default. *)
Theorem getter_timeout_is_explicit s :
  wf s →
  (∀ g, link_up s = true → telemetry_of g ∉ (inbox s).*1 →
        (run_getter g s).1 = inl RequestTimeout) ∧
  (∀ g r, (run_getter g s).1 = inr r →
          ∃ v, (telemetry_of g, v) ∈ inbox s ∧ convert g v = inr r) ∧
  (∀ q, (get_voltage s).1 = inr q →
        ∃ v, (GET_BATTERY_VOLTAGE, v) ∈ inbox s ∧ v !! 0%nat = Some q).
Proof.
  intros Hwf.
  assert (Hpub : ∀ t v, (fetch t s).1 = inr v → (t, v) ∈ inbox s).
  { intros t v. rewrite fetch_result by done.
    destruct (link_up s); [|done].
    destruct (last (values_of t (inbox s))) as [w|] eqn:Hlast; [|done].
    intros [= ->]. apply values_of_elem.
    apply last_Some in Hlast as [l' ->].
    apply elem_of_app. right. by apply list_elem_of_singleton. }
  split; [|split].
  - intros g Hup Hg. rewrite run_getter_result, fetch_result, Hup by done.
    by rewrite values_of_nil.
  - intros g r. rewrite run_getter_result.
    destruct (fetch (telemetry_of g) s).1 as [e|v] eqn:Hf; [done|].
    intros Hr. exists v. split; [by apply Hpub | done].
  - intros q. rewrite get_voltage_fetch. unfold mbind, M_bind, lift.
    specialize (Hpub GET_BATTERY_VOLTAGE).
    destruct (fetch GET_BATTERY_VOLTAGE s) as [[e|v] s1]; simpl in *; [done|].
    intros Hq. exists v. split; [by apply Hpub | by apply py_getitem_first].
Qed.

Lemma getter_timeout_is_explicit_witness :
  (run_getter call_get_voltage (__init__ ∅ true [])).1 = inl RequestTimeout.
Proof.
  apply (getter_timeout_is_explicit (__init__ ∅ true [])
           (wf_init ∅ true [])).
  - reflexivity.
  - simpl. apply not_elem_of_nil.
Defined.

(** ** Units of the attitude *)

(** C5: when the attitude tuple [v] is the value received for the
    request, [get_attitude] with [degrees] false returns [v] unchanged
    and with [degrees] true returns, for every angle of [v], the binary64
    value of [angle * 180 / math.pi], the product rounded and then the
    quotient rounded. The conversion is made in the getter after the
    value was read: both calls leave the same state, and the subscriber
    holds the radians. *)
Theorem get_attitude_units s v :
  wf s → link_up s = true →
  last (values_of ATTITUDE_RADIANS (inbox s)) = Some v →
  (get_attitude false s).1 = inr v ∧
  (get_attitude true s).1
    = inr (map (λ angle, angle * 180 / math_pi)%float v) ∧
  (get_attitude true s).2 = (get_attitude false s).2 ∧
  latest_value <$> heap (get_attitude true s).2 !! __attitude_sub (self s)
    = Some (Some v).
Proof.
  intros Hwf Hup Hlast.
  pose proof (fetch_result ATTITUDE_RADIANS s Hwf) as Hres.
  pose proof (fetch_state ATTITUDE_RADIANS s) as Hst.
  rewrite Hup in Hres, Hst. rewrite Hlast in Hres.
  rewrite !get_attitude_fetch. unfold mbind, M_bind, mret, M_ret.
  destruct (fetch ATTITUDE_RADIANS s) as [[e|w] s1]; simpl in *; [done|].
  injection Hres as ->. repeat split.
  subst s1. simpl.
  destruct Hwf as [Hd Ha Hw].
  destruct (Ha ATTITUDE_RADIANS) as [b Hb].
  rewrite (pump_lookup _ _ Hd Hw ATTITUDE_RADIANS), Hb.
  simpl. by rewrite publish_all_latest, Hlast.
Qed.

Lemma get_attitude_units_witness :
  let s := __init__ ∅ true [(ATTITUDE_RADIANS, [0.1%float; 0%float; (-0.5)%float])] in
  (get_attitude false s).1 = inr [0.1%float; 0%float; (-0.5)%float] ∧
  (get_attitude true s).1
    = inr [5.729577951308232%float; 0%float; (-28.64788975654116)%float].
Proof.
  intros s.
  destruct (get_attitude_units s [0.1%float; 0%float; (-0.5)%float]
              (wf_init _ _ _) eq_refl eq_refl) as (Hrad & Hdeg & _).
  split; [exact Hrad|].
  rewrite Hdeg. vm_compute. reflexivity.
Defined.

(** ** Motors by number *)

(** C10: for a motor number between 1 and 4, [get_motor] returns the
    element at the 0-based position [motor - 1] of the tuple that
    [get_motors] returns. *)
Theorem get_motor_is_element s motor motor_values s' x :
  get_motors s = (inr motor_values, s') →
  1 ≤ motor ≤ 4 →
  motor_values !! Z.to_nat (motor - 1) = Some x →
  get_motor motor s = (inr x, s').
Proof.
  intros Hget Hm Hx. unfold get_motor, mbind, M_bind. rewrite Hget.
  unfold lift. by rewrite (py_getitem_lookup _ _ x) by (done || lia).
Qed.

Lemma get_motor_is_element_witness :
  (get_motor 2
     (__init__ ∅ true
        [(GET_MOTOR_NORMAL, [0.1%float; 0.2%float; 0.3%float; 0.4%float])])).1
  = inr 0.2%float.
Proof.
  set (s := __init__ ∅ true
        [(GET_MOTOR_NORMAL, [0.1%float; 0.2%float; 0.3%float; 0.4%float])]).
  rewrite (get_motor_is_element s 2
             [0.1%float; 0.2%float; 0.3%float; 0.4%float]
             (get_motors s).2 0.2%float).
  - reflexivity.
  - vm_compute. reflexivity.
  - lia.
  - reflexivity.
Defined.

(** ** Turning *)

(** C8: [turn] sends the counter-clockwise frame with the angle when the
    angle is greater than 0 and the clockwise frame with the same angle
    otherwise; for the angle 0 it is the clockwise frame. *)
Theorem turn_direction angle s :
  trace (turn angle) s =
    [SendData (if decide (0 < angle)
               then serialize_WP_TURN_CCW angle 0
               else serialize_WP_TURN_CW angle 0)] ∧
  trace (turn 0) s = [SendData (serialize_WP_TURN_CW 0 0)].
Proof.
  split; apply trace_app; unfold turn.
  - case_decide as Hpos.
    + assert (Hgt : (angle >? 0) = true) by lia.
      rewrite Hgt, send_data_eq. done.
    + assert (Hgt : (angle >? 0) = false) by lia.
      rewrite Hgt, send_data_eq. done.
  - simpl. by rewrite send_data_eq.
Qed.

(** ** Stateful setters *)

Lemma set_motors_eq m1 m2 m3 m4 s :
  set_motors [m1; m2; m3; m4] s =
  _send_data (serialize_SET_MOTOR_NORMAL m1 m2 m3 m4)
    (assign (with_motor_values [m1; m2; m3; m4]) s).2.
Proof. reflexivity. Qed.

Lemma set_leds_eq red green blue r g b s :
  __led_status (self s) = [r; g; b] →
  set_leds red green blue s =
  _send_data
    (serialize_SET_LEDS (default r red) (default g green) (default b blue))
    (assign (with_led_status
               [default r red; default g green; default b blue]) s).2.
Proof.
  intros Hc. unfold set_leds, mbind, M_bind, this, lift. simpl.
  rewrite Hc. by destruct red, green, blue.
Qed.

Lemma caches_ok_init σ0 up incoming : caches_ok (__init__ σ0 up incoming).
Proof.
  unfold __init__.
  repeat match goal with
  | |- context [Subscriber_new ?σ] => destruct (Subscriber_new σ)
  end.
  by split.
Qed.


(** C3: for a motor number between 1 and 4, [set_motor] sends the four
    motor slots, the slot of that motor holding the new value and the
    other three the cached values; [set_leds] sends the three LED slots,
    a LED left as [None] keeping its cached status. *)
Theorem setters_send_full_payload s motor value red green blue r g b :
  1 ≤ motor ≤ 4 →
  length (__motor_values (self s)) = 4%nat →
  __led_status (self s) = [r; g; b] →
  (∃ m1 m2 m3 m4,
     <[Z.to_nat (motor - 1) := value]> (__motor_values (self s))
       = [m1; m2; m3; m4] ∧
     trace (set_motor motor value) s
       = [SendData (serialize_SET_MOTOR_NORMAL m1 m2 m3 m4)]) ∧
  trace (set_leds red green blue) s
    = [SendData (serialize_SET_LEDS
                   (default r red) (default g green) (default b blue))].
Proof.
  intros Hm Hlen Hleds. split.
  - destruct (__motor_values (self s))
      as [|c1 [|c2 [|c3 [|c4 [|c5 rest]]]]] eqn:Hc; try done.
    assert (Hcases : motor = 1 ∨ motor = 2 ∨ motor = 3 ∨ motor = 4) by lia.
    destruct Hcases as [-> | [-> | [-> | ->]]];
      do 4 eexists; (split; [reflexivity|]);
      apply trace_app;
      unfold set_motor, mbind, M_bind, this, lift; simpl; rewrite Hc;
      simpl; rewrite set_motors_eq, send_data_eq; reflexivity.
  - apply trace_app. by rewrite (set_leds_eq _ _ _ r g b), send_data_eq.
Qed.

Lemma setters_send_full_payload_witness :
  let s := (set_leds (Some 1) (Some 1) None
              (set_motors [0.1%float; 0.2%float; 0.3%float; 0.4%float]
                 (__init__ ∅ true [])).2).2 in
  trace (set_motor 3 0.5%float) s
    = [SendData (serialize_SET_MOTOR_NORMAL 0.1 0.2 0.5 0.4)] ∧
  trace (set_leds None (Some 0) None) s
    = [SendData (serialize_SET_LEDS 1 0 0)].
Proof.
  intros s.
  destruct (setters_send_full_payload s 3 0.5%float None (Some 0) None 1 1 0)
    as [(m1 & m2 & m3 & m4 & Hins & Htr) Hleds];
    [lia | reflexivity | reflexivity |].
  vm_compute in Hins. injection Hins as <- <- <- <-.
  split; [exact Htr | exact Hleds].
Defined.

(** C4, as the code has it: [set_motors], [set_voltage] and [set_leds]
    write the cached attribute first and send afterwards, so the cache
    holds the new value whether or not the write succeeds; when the
    transport refuses the write the call fails with [IOError] and the
    cache keeps the new value. *)
Theorem cache_written_before_send s values voltage red green blue r g b :
  __led_status (self s) = [r; g; b] →
  __motor_values (self (set_motors values s).2) = values ∧
  __voltage (self (set_voltage voltage s).2) = voltage ∧
  __led_status (self (set_leds red green blue s).2)
    = [default r red; default g green; default b blue] ∧
  (link_up s = false →
     (set_voltage voltage s).1 = inl IOError ∧
     (set_leds red green blue s).1 = inl IOError ∧
     (length values = 4%nat → (set_motors values s).1 = inl IOError)).
Proof.
  intros Hleds. split; [|split; [|split]].
  - unfold set_motors, mbind, M_bind, lift. simpl.
    destruct (star_SET_MOTOR_NORMAL values); [done|].
    by rewrite send_data_eq.
  - unfold set_voltage, mbind, M_bind. simpl. by rewrite send_data_eq.
  - by rewrite (set_leds_eq _ _ _ r g b), send_data_eq.
  - intros Hdown. split; [|split].
    + unfold set_voltage, mbind, M_bind. simpl. rewrite send_data_eq.
      simpl. by rewrite Hdown.
    + rewrite (set_leds_eq _ _ _ r g b), send_data_eq by done.
      simpl. by rewrite Hdown.
    + intros Hlen.
      destruct values as [|m1 [|m2 [|m3 [|m4 [|m5 rest]]]]]; try done.
      rewrite set_motors_eq, send_data_eq. simpl. by rewrite Hdown.
Qed.

Lemma cache_written_before_send_witness :
  __voltage (self (set_voltage 3.7%float (__init__ ∅ false [])).2)
  = 3.7%float.
Proof.
  apply (cache_written_before_send (__init__ ∅ false [])
           [1%float; 1%float; 1%float; 1%float] 3.7%float None None None 0 0 0).
  reflexivity.
Defined.

(** C4 as stated fails: on a new instance whose transport refuses the
    write, each of the three setters fails with [IOError] and leaves a
    cache different from the one it found. *)
Lemma cache_changed_on_failed_send :
  let s := __init__ ∅ false [] in
  ((set_voltage 3.7%float s).1 = inl IOError ∧
   __voltage (self (set_voltage 3.7%float s).2) ≠ __voltage (self s)) ∧
  ((set_motors [1%float; 1%float; 1%float; 1%float] s).1 = inl IOError ∧
   __motor_values (self (set_motors [1%float; 1%float; 1%float; 1%float] s).2)
     ≠ __motor_values (self s)) ∧
  ((set_leds (Some 1) None None s).1 = inl IOError ∧
   __led_status (self (set_leds (Some 1) None None s).2)
     ≠ __led_status (self s)).
Proof.
  repeat split; try (vm_compute; reflexivity); vm_compute; discriminate.
Qed.

(** ** Commands *)

(** C6: a command method is one call of [_send_data] with one frame and
    nothing else: its trace is that single send, without any blocking
    read, and it leaves the store of subscribers, the pending replies
    and the instance as they were. *)
Theorem command_sends_one_frame c s :
  ∃ f, run_command c s = _send_data f s ∧
       trace (run_command c) s = [SendData f] ∧
       heap (run_command c s).2 = heap s ∧
       inbox (run_command c s).2 = inbox s ∧
       self (run_command c s).2 = self s.
Proof.
  assert (Hsend : ∃ f, run_command c s = _send_data f s).
  { destruct c; simpl; try (eexists; reflexivity).
    unfold turn. destruct (angle >? 0); eexists; reflexivity. }
  destruct Hsend as [f Hf]. exists f. split; [done|].
  split; [apply trace_app|]; rewrite Hf, send_data_eq; done.
Qed.

(** ** Dispatch isolation *)

(** C7: on an instance as the constructor leaves it, two different
    messages have different subscribers; the handler of a message is the
    publisher of its own subscriber; dispatching a value of message [A]
    publishes it into the subscriber of [A] and leaves the subscriber of
    any other message [B] as it was; and a getter of [A] reads the
    subscriber of [A] only: that is the one subscriber in its trace, and
    a value of [B] arriving during its wait does not change what it
    returns. *)
Theorem dispatch_isolation s A B v :
  wf s → A ≠ B →
  sub_of A (self s) ≠ sub_of B (self s) ∧
  handler_of A (_parser (self s)) = Some (publisher (sub_of A (self s))) ∧
  dispatch (_parser (self s)) A v (heap s) !! sub_of A (self s)
    = notify v <$> heap s !! sub_of A (self s) ∧
  dispatch (_parser (self s)) A v (heap s) !! sub_of B (self s)
    = heap s !! sub_of B (self s) ∧
  (∀ g sub, telemetry_of g = A →
            GetValue sub ∈ trace (run_getter g) s → sub = sub_of A (self s)) ∧
  (∀ g, telemetry_of g = A →
        (run_getter g
           (mkState (self s) (heap s) (link_up s) ((B, v) :: inbox s) (log s))).1
        = (run_getter g s).1).
Proof.
  intros Hwf Hne. pose proof Hwf as [Hd Ha Hw].
  split; [|split; [|split; [|split; [|split]]]].
  - intros Heq. by apply Hne, Hd.
  - apply Hw.
  - by apply dispatch_own.
  - by apply dispatch_other.
  - intros g sub <-.
    rewrite run_getter_trace.
    destruct (link_up s); rewrite ?elem_of_cons, ?elem_of_nil;
      intros Hin; decompose [or] Hin; by simplify_eq.
  - intros g <-.
    assert (Hwf' : wf (mkState (self s) (heap s) (link_up s)
                         ((B, v) :: inbox s) (log s))) by by split.
    rewrite !run_getter_result, !fetch_result by done. simpl.
    case_decide; [congruence|done].
Qed.

Lemma dispatch_isolation_witness :
  sub_of ATTITUDE_RADIANS (self (__init__ ∅ true []))
  ≠ sub_of GET_BATTERY_VOLTAGE (self (__init__ ∅ true [])).
Proof.
  apply (dispatch_isolation (__init__ ∅ true [])
           ATTITUDE_RADIANS GET_BATTERY_VOLTAGE [0%float; 0%float; 0%float]
           (wf_init ∅ true [])).
  discriminate.
Defined.

(** ** The cached voltage *)

Lemma set_voltage_state voltage s :
  (set_voltage voltage s).2 =
  after_send (serialize_SET_BATTERY_VOLTAGE voltage)
    (mkState (with_voltage voltage (self s)) (heap s) (link_up s)
       (inbox s) (log s)).
Proof. unfold set_voltage, mbind, M_bind. simpl. by rewrite send_data_eq. Qed.

(** The result of [fetch] depends on the instance only through its
    subscribers and parser, and not on the log. *)
Lemma fetch_result_same t s s' :
  (∀ t', sub_of t' (self s') = sub_of t' (self s)) →
  _parser (self s') = _parser (self s) →
  heap s' = heap s → link_up s' = link_up s → inbox s' = inbox s →
  (fetch t s').1 = (fetch t s).1.
Proof.
  intros Hsub Hp Hh Hup Hin. rewrite !fetch_eq, Hup.
  destruct (link_up s); [|done].
  unfold get_value. simpl. rewrite Hsub, Hp, Hh, Hin.
  repeat case_match; done.
Qed.

(** C9: [set_voltage] changes nothing but the cached attribute
    [__voltage] and the log, to which it adds the send of the
    set-voltage frame; no getter depends on that attribute, so every
    getter, [get_voltage] among them, returns after [set_voltage] what it
    would have returned without it; on an instance as the constructor
    leaves it, what [get_voltage] returns is decided by the values
    published for the voltage message alone. *)
Theorem set_voltage_private s voltage :
  wf s →
  (set_voltage voltage s).2 =
    mkState (with_voltage voltage (self s)) (heap s) (link_up s) (inbox s)
      (log s ++ [SendData (serialize_SET_BATTERY_VOLTAGE voltage)]) ∧
  (get_voltage (set_voltage voltage s).2).1 = (get_voltage s).1 ∧
  (∀ g, (run_getter g (set_voltage voltage s).2).1 = (run_getter g s).1) ∧
  (link_up s = true →
   (get_voltage s).1 =
   match last (values_of GET_BATTERY_VOLTAGE (inbox s)) with
   | Some v => py_getitem v 0
   | None => inl RequestTimeout
   end).
Proof.
  intros Hwf.
  assert (Hsame : ∀ t, (fetch t (set_voltage voltage s).2).1 = (fetch t s).1).
  { intros t. rewrite set_voltage_state.
    by apply fetch_result_same. }
  split; [|split; [|split]].
  - by rewrite set_voltage_state.
  - rewrite !get_voltage_fetch. unfold mbind, M_bind, lift.
    specialize (Hsame GET_BATTERY_VOLTAGE).
    destruct (fetch _ (set_voltage voltage s).2) as [[e|v] s1],
      (fetch _ s) as [[e'|v'] s1']; simpl in *; by simplify_eq.
  - intros g. by rewrite !run_getter_result, Hsame.
  - intros Hup. rewrite get_voltage_fetch. unfold mbind, M_bind, lift.
    pose proof (fetch_result GET_BATTERY_VOLTAGE s Hwf) as Hres.
    rewrite Hup in Hres.
    destruct (fetch _ s) as [[e|v] s1]; simpl in *;
      by destruct (last (values_of GET_BATTERY_VOLTAGE (inbox s)));
         simplify_eq.
Qed.

Lemma set_voltage_private_witness :
  let s := __init__ ∅ true [(GET_BATTERY_VOLTAGE, [7.4%float])] in
  (get_voltage (set_voltage 3.7%float s).2).1 = (get_voltage s).1.
Proof.
  intros s.
  exact (proj1 (proj2 (set_voltage_private s 3.7%float (wf_init _ _ _)))).
Defined.

(** * Further properties of the methods *)

(** ** Indexing *)

Lemma py_getitem_negative {A} (l : list A) (i : Z) x :
  - Z.of_nat (length l) ≤ i < 0 →
  l !! Z.to_nat (i + Z.of_nat (length l)) = Some x →
  py_getitem l i = inr x.
Proof.
  intros Hi Hx. unfold py_getitem.
  destruct (i <? 0) eqn:Hneg; [|lia].
  destruct (0 <=? i + Z.of_nat (length l)) eqn:H0; [|lia].
  destruct (i + Z.of_nat (length l) <? Z.of_nat (length l)) eqn:Hn; [|lia].
  simpl. by rewrite Hx.
Qed.

Lemma py_getitem_out_of_range {A} (l : list A) (i : Z) :
  Z.of_nat (length l) ≤ i ∨ i < - Z.of_nat (length l) →
  py_getitem l i = inl IndexError.
Proof.
  intros Hi. unfold py_getitem.
  destruct (i <? 0) eqn:Hneg.
  - destruct (0 <=? i + Z.of_nat (length l)) eqn:H0; [lia|done].
  - destruct (0 <=? i) eqn:H0; [|done].
    destruct (i <? Z.of_nat (length l)) eqn:Hn; [lia|done].
Qed.

(** [get_motor] outside 1..4: the motor number is not checked, so a
    number from [1 - n] to 0 counts from the end of the [n]-tuple that
    [get_motors] returned ([get_motor 0] is the last motor), and a number
    above [n] or below [1 - n] raises [IndexError] after the reply was
    read. *)
Theorem get_motor_unchecked_number s motor motor_values s' :
  get_motors s = (inr motor_values, s') →
  (∀ x, 1 - Z.of_nat (length motor_values) ≤ motor ≤ 0 →
        motor_values !! Z.to_nat (motor - 1 + Z.of_nat (length motor_values))
          = Some x →
        get_motor motor s = (inr x, s')) ∧
  (motor > Z.of_nat (length motor_values)
   ∨ motor < 1 - Z.of_nat (length motor_values) →
   get_motor motor s = (inl IndexError, s')).
Proof.
  intros Hget. split.
  - intros x Hm Hx. unfold get_motor, mbind, M_bind. rewrite Hget.
    unfold lift. by rewrite (py_getitem_negative _ _ x) by (done || lia).
  - intros Hm. unfold get_motor, mbind, M_bind. rewrite Hget.
    unfold lift. by rewrite py_getitem_out_of_range by lia.
Qed.

Lemma get_motor_unchecked_number_witness :
  let s := __init__ ∅ true
             [(GET_MOTOR_NORMAL, [0.1%float; 0.2%float; 0.3%float; 0.4%float])] in
  (get_motor 0 s).1 = inr 0.4%float ∧ (get_motor 5 s).1 = inl IndexError.
Proof.
  intros s.
  destruct (get_motor_unchecked_number s 0
              [0.1%float; 0.2%float; 0.3%float; 0.4%float]
              (get_motors s).2) as [Hin _]; [vm_compute; reflexivity|].
  destruct (get_motor_unchecked_number s 5
              [0.1%float; 0.2%float; 0.3%float; 0.4%float]
              (get_motors s).2) as [_ Hout]; [vm_compute; reflexivity|].
  split.
  - rewrite (Hin 0.4%float); [reflexivity | simpl; lia | reflexivity].
  - rewrite Hout; [reflexivity | simpl; lia].
Defined.

(** ** Setting motors *)

Lemma set_motors_cache values s :
  __motor_values (self (set_motors values s).2) = values.
Proof.
  unfold set_motors, mbind, M_bind, lift. simpl.
  destruct (star_SET_MOTOR_NORMAL values); [done|].
  by rewrite send_data_eq.
Qed.

(** With a cache of four values, [set_motor] is [set_motors] on the
    cache with the slot of the motor replaced, or on the cache itself
    when the number is not one of 1..4. *)
Lemma set_motor_set_motors s motor value :
  length (__motor_values (self s)) = 4%nat →
  set_motor motor value s =
  set_motors
    (if decide (1 ≤ motor ≤ 4)
     then <[Z.to_nat (motor - 1) := value]> (__motor_values (self s))
     else __motor_values (self s)) s.
Proof.
  intros Hlen.
  destruct (__motor_values (self s))
    as [|c1 [|c2 [|c3 [|c4 [|c5 rest]]]]] eqn:Hc; try done.
  unfold set_motor, mbind, M_bind, this, lift. simpl. rewrite Hc.
  case_decide as Hm.
  - assert (Hcases : motor = 1 ∨ motor = 2 ∨ motor = 3 ∨ motor = 4) by lia.
    by destruct Hcases as [-> | [-> | [-> | ->]]].
  - repeat case_bool_decide; simpl; first [reflexivity | lia].
Qed.



(** [set_motor] on a cache that lacks a slot it has to copy: when some
    position below 4 other than the one of the motor is beyond the end
    of the cached tuple, the call raises [IndexError] before anything is
    assigned or sent. *)
Theorem set_motor_short_cache s motor value i :
  0 ≤ i < 4 → i ≠ motor - 1 →
  (length (__motor_values (self s)) ≤ Z.to_nat i)%nat →
  set_motor motor value s = (inl IndexError, s).
Proof.
  intros Hi Hne Hlen.
  unfold set_motor, mbind, M_bind, this, lift. simpl.
  destruct (__motor_values (self s)) as [|c1 [|c2 [|c3 [|c4 rest]]]];
    simpl in Hlen; [| | | |lia];
    repeat case_bool_decide; simpl; first [reflexivity | lia].
Qed.

Lemma set_motor_short_cache_witness :
  let s := (set_motors [1%float; 1%float] (__init__ ∅ true [])).2 in
  set_motor 1 0.5%float s = (inl IndexError, s).
Proof.
  intros s. apply (set_motor_short_cache s 1 0.5%float 2).
  - lia.
  - lia.
  - vm_compute. lia.
Defined.

(** Two calls of [set_motor] for motors between 1 and 4: the second call
    sends the cache with both slots replaced, so the value set first is
    kept; and for two different motors the cache reached does not depend
    on the order of the calls. *)
Theorem set_motor_twice s motor value motor' value' :
  1 ≤ motor ≤ 4 → 1 ≤ motor' ≤ 4 →
  length (__motor_values (self s)) = 4%nat →
  (∃ m1 m2 m3 m4,
     <[Z.to_nat (motor' - 1) := value']>
        (<[Z.to_nat (motor - 1) := value]> (__motor_values (self s)))
       = [m1; m2; m3; m4] ∧
     trace (set_motor motor' value') (set_motor motor value s).2
       = [SendData (serialize_SET_MOTOR_NORMAL m1 m2 m3 m4)] ∧
     __motor_values (self (set_motor motor' value' (set_motor motor value s).2).2)
       = [m1; m2; m3; m4]) ∧
  (motor ≠ motor' →
   __motor_values (self (set_motor motor' value' (set_motor motor value s).2).2)
   = __motor_values (self (set_motor motor value (set_motor motor' value' s).2).2)).
Proof.
  intros Hm Hm' Hlen.
  assert (Hstep : ∀ s0 n x, 1 ≤ n ≤ 4 →
            length (__motor_values (self s0)) = 4%nat →
            set_motor n x s0
              = set_motors (<[Z.to_nat (n - 1) := x]> (__motor_values (self s0))) s0).
  { intros s0 n x Hn Hl. rewrite set_motor_set_motors by done.
    by rewrite decide_True. }
  assert (Hcache : ∀ s0 n x, 1 ≤ n ≤ 4 →
            length (__motor_values (self s0)) = 4%nat →
            __motor_values (self (set_motor n x s0).2)
              = <[Z.to_nat (n - 1) := x]> (__motor_values (self s0))).
  { intros s0 n x Hn Hl. by rewrite Hstep, set_motors_cache. }
  assert (Hlen1 : ∀ s0 n x, 1 ≤ n ≤ 4 →
            length (__motor_values (self s0)) = 4%nat →
            length (__motor_values (self (set_motor n x s0).2)) = 4%nat).
  { intros s0 n x Hn Hl. by rewrite Hcache, length_insert. }
  split.
  - pose proof (Hcache _ motor' value' Hm' (Hlen1 s motor value Hm Hlen)) as Hc2.
    rewrite (Hcache s motor value Hm Hlen) in Hc2.
    pose proof (Hstep _ motor' value' Hm' (Hlen1 s motor value Hm Hlen)) as Hs2.
    rewrite (Hcache s motor value Hm Hlen) in Hs2.
    destruct (<[Z.to_nat (motor' - 1) := value']>
                (<[Z.to_nat (motor - 1) := value]> (__motor_values (self s))))
      as [|m1 [|m2 [|m3 [|m4 [|m5 rest]]]]] eqn:Hins;
      try (apply (f_equal length) in Hins;
           rewrite !length_insert, Hlen in Hins; discriminate).
    exists m1, m2, m3, m4. split; [done|]. split; [|done].
    apply trace_app. by rewrite Hs2, set_motors_eq, send_data_eq.
  - intros Hne.
    rewrite (Hcache (set_motor motor value s).2 motor' value') by auto.
    rewrite (Hcache (set_motor motor' value' s).2 motor value) by auto.
    rewrite (Hcache s motor value), (Hcache s motor' value') by auto.
    apply list_insert_insert_ne. lia.
Qed.

Lemma set_motor_twice_witness :
  trace (set_motor 3 0.25%float) (set_motor 1 0.5%float (__init__ ∅ true [])).2
  = [SendData (serialize_SET_MOTOR_NORMAL 0.5 0 0.25 0)].
Proof.
  destruct (set_motor_twice (__init__ ∅ true []) 1 0.5%float 3 0.25%float)
    as [(m1 & m2 & m3 & m4 & Hc & Htr & _) _]; [lia | lia | reflexivity |].
  injection Hc as <- <- <- <-. exact Htr.
Defined.

(** With caches of the arity of their messages, [set_motor] and
    [set_leds] raise nothing of their own: each returns when the
    transport takes the write and fails with [IOError] when it does
    not. *)
Theorem setters_fail_only_on_write s motor value red green blue :
  caches_ok s →
  (set_motor motor value s).1 = (if link_up s then inr tt else inl IOError) ∧
  (set_leds red green blue s).1 = (if link_up s then inr tt else inl IOError).
Proof.
  intros [Hm Hl]. split.
  - rewrite set_motor_set_motors by done.
    set (values := if decide (1 ≤ motor ≤ 4) then _ else _).
    assert (Hv : length values = 4%nat).
    { unfold values. case_decide; by rewrite ?length_insert. }
    destruct values as [|m1 [|m2 [|m3 [|m4 [|m5 rest]]]]]; try done.
    by rewrite set_motors_eq, send_data_eq.
  - destruct (__led_status (self s)) as [|r [|g [|b [|x rest]]]] eqn:Hleds;
      try done.
    by rewrite (set_leds_eq _ _ _ r g b), send_data_eq.
Qed.

Lemma setters_fail_only_on_write_witness :
  (set_motor 7 0.5%float (__init__ ∅ false [])).1 = inl IOError.
Proof.
  destruct (setters_fail_only_on_write (__init__ ∅ false []) 7 0.5%float
              None None None (caches_ok_init _ _ _)) as [Hmotor _].
  exact Hmotor.
Defined.

(** ** Setting LEDs *)

Lemma set_leds_cache red green blue r g b s :
  __led_status (self s) = [r; g; b] →
  __led_status (self (set_leds red green blue s).2)
  = [default r red; default g green; default b blue].
Proof. intros Hc. by rewrite (set_leds_eq _ _ _ r g b), send_data_eq. Qed.

Lemma set_leds_trace red green blue r g b s :
  __led_status (self s) = [r; g; b] →
  trace (set_leds red green blue) s
  = [SendData (serialize_SET_LEDS
                 (default r red) (default g green) (default b blue))].
Proof.
  intros Hc. apply trace_app.
  by rewrite (set_leds_eq _ _ _ r g b), send_data_eq.
Qed.

(** Two calls of [set_leds] act as one call in which each LED takes the
    argument of the second call, or that of the first where the second
    left it out: the second call sends that status and the cache holds
    it. A call with no LED given sends the cached status again and
    leaves the cache as it was. *)
Theorem set_leds_twice s red green blue red' green' blue' r g b :
  __led_status (self s) = [r; g; b] →
  trace (set_leds red' green' blue') (set_leds red green blue s).2
    = trace (set_leds (later_or red' red) (later_or green' green)
               (later_or blue' blue)) s ∧
  __led_status (self (set_leds red' green' blue' (set_leds red green blue s).2).2)
    = __led_status
        (self (set_leds (later_or red' red) (later_or green' green)
                 (later_or blue' blue) s).2) ∧
  trace (set_leds None None None) s = [SendData (serialize_SET_LEDS r g b)] ∧
  __led_status (self (set_leds None None None s).2) = [r; g; b].
Proof.
  intros Hc.
  pose proof (set_leds_cache red green blue r g b s Hc) as Hc1.
  split; [|split; [|split]].
  - rewrite (set_leds_trace red' green' blue' _ _ _ _ Hc1).
    rewrite (set_leds_trace _ _ _ r g b) by done.
    by destruct red, green, blue, red', green', blue'.
  - rewrite (set_leds_cache red' green' blue' _ _ _ _ Hc1).
    rewrite (set_leds_cache _ _ _ r g b) by done.
    by destruct red, green, blue, red', green', blue'.
  - by rewrite (set_leds_trace _ _ _ r g b).
  - by rewrite (set_leds_cache _ _ _ r g b).
Qed.

Lemma set_leds_twice_witness :
  trace (set_leds None None (Some 1))
    (set_leds (Some 1) None None (__init__ ∅ true [])).2
  = [SendData (serialize_SET_LEDS 1 0 1)].
Proof.
  destruct (set_leds_twice (__init__ ∅ true [])
              (Some 1) None None None None (Some 1) 0 0 0) as [Htr _];
    [reflexivity|].
  rewrite Htr. vm_compute. reflexivity.
Defined.

(** ** What a call changes *)

(** A state that differs from [s] at most in the instance attributes
    and in the log. *)
Lemma set_motors_effect values s :
  self (set_motors values s).2 = with_motor_values values (self s) ∧
  heap (set_motors values s).2 = heap s ∧
  link_up (set_motors values s).2 = link_up s ∧
  inbox (set_motors values s).2 = inbox s.
Proof.
  unfold set_motors, mbind, M_bind, lift. simpl.
  destruct (star_SET_MOTOR_NORMAL values); [done|].
  by rewrite send_data_eq.
Qed.

Lemma set_motor_effect motor value s :
  (self (set_motor motor value s).2 = self s
   ∨ ∃ values, self (set_motor motor value s).2
               = with_motor_values values (self s)) ∧
  heap (set_motor motor value s).2 = heap s ∧
  link_up (set_motor motor value s).2 = link_up s ∧
  inbox (set_motor motor value s).2 = inbox s.
Proof.
  unfold set_motor, mbind, M_bind, this, lift. cbv beta iota.
  match goal with
  | |- context [for_each ?f ?l] => destruct (for_each f l) as [e|values]
  end; [by split; [left|]|].
  destruct (set_motors_effect values s) as (Hs & Hh & Hl & Hi).
  split; [right; by exists values | done].
Qed.

Lemma set_leds_effect red green blue s :
  (self (set_leds red green blue s).2 = self s
   ∨ ∃ status, self (set_leds red green blue s).2
               = with_led_status status (self s)) ∧
  heap (set_leds red green blue s).2 = heap s ∧
  link_up (set_leds red green blue s).2 = link_up s ∧
  inbox (set_leds red green blue s).2 = inbox s.
Proof.
  unfold set_leds, mbind, M_bind, this, lift, assign. cbv beta iota.
  match goal with
  | |- context [for_each ?f ?l] => destruct (for_each f l) as [e|status]
  end; [by split; [left|]|].
  simpl. destruct (star_SET_LEDS status);
    rewrite ?send_data_eq; (split; [right; by exists status | done]).
Qed.

Lemma set_PID_state k1 k2 k3 k4 k5 k6 k7 k8 k9 k10 k11 k12 k13 k14 k15 k16
    k17 k18 k19 s :
  (set_PID k1 k2 k3 k4 k5 k6 k7 k8 k9 k10 k11 k12 k13 k14 k15 k16 k17 k18
     k19 s).2 =
  after_send
    (serialize_SET_PID_CONSTANTS k1 k2 k3 k4 k5 k6 k7 k8 k9 k10 k11 k12 k13
       k14 k15 k16 k17 k18 k19)
    (mkState
       (with_controller_constants
          [k1; k2; k3; k4; k5; k6; k7; k8; k9; k10; k11; k12; k13; k14; k15;
           k16; k17; k18; k19] (self s))
       (heap s) (link_up s) (inbox s) (log s)).
Proof. unfold set_PID, mbind, M_bind. simpl. by rewrite send_data_eq. Qed.

Lemma run_command_send c s : ∃ f, run_command c s = _send_data f s.
Proof.
  destruct c; simpl; try (eexists; reflexivity).
  unfold turn. destruct (angle >? 0); eexists; reflexivity.
Qed.

Lemma get_motor_state motor s : (get_motor motor s).2 = (get_motors s).2.
Proof.
  unfold get_motor, mbind, M_bind, lift.
  by destruct (get_motors s) as [[e|v] s1].
Qed.

(** The store after a getter: as it was, or as the stream reader leaves
    it after dispatching the pending messages. *)
Lemma run_getter_effect g s :
  self (run_getter g s).2 = self s ∧
  link_up (run_getter g s).2 = link_up s ∧
  heap (run_getter g s).2 =
    (if link_up s then pump (_parser (self s)) (inbox s) (heap s) else heap s).
Proof.
  rewrite run_getter_state, fetch_state.
  by destruct (link_up s) eqn:Hup.
Qed.

Lemma run_call_heap c s :
  heap (run_call c s) = heap s
  ∨ heap (run_call c s) = pump (_parser (self s)) (inbox s) (heap s).
Proof.
  destruct c; simpl.
  - destruct (run_getter_effect g s) as (_ & _ & ->).
    destruct (link_up s); auto.
  - destruct (run_command_send c s) as [f ->]. left. by rewrite send_data_eq.
  - left. apply set_motor_effect.
  - left. apply set_motors_effect.
  - left. by rewrite set_voltage_state.
  - rewrite get_motor_state.
    destruct (run_getter_effect call_get_motors s) as (_ & _ & Hh).
    simpl in Hh. unfold mbind, M_bind in Hh.
    destruct (get_motors s) as [[e|v] s1]; simpl in *; rewrite Hh;
      destruct (link_up s); auto.
  - left. by rewrite set_PID_state.
  - left. apply set_leds_effect.
Qed.

Lemma stable_run_call c s : stable s (run_call c s).
Proof.
  destruct c; simpl.
  - apply preserves_run_getter.
  - apply preserves_run_command.
  - apply preserves_set_motor.
  - apply preserves_set_motors.
  - apply preserves_set_voltage.
  - apply preserves_get_motor.
  - apply preserves_set_PID.
  - apply preserves_set_leds.
Qed.

Lemma stable_run_step st s : stable s (run_step st s).
Proof.
  destruct st; simpl.
  - apply stable_run_call.
  - repeat split. simpl. apply pump_is_Some.
  - by repeat split.
  - by repeat split.
Qed.

Lemma run_steps_snoc steps st s :
  run_steps (steps ++ [st]) s = run_step st (run_steps steps s).
Proof. unfold run_steps. by rewrite foldl_snoc. Qed.

(** ** Invariants of the reachable states *)

Lemma run_steps_wf steps s : wf s → wf (run_steps steps s).
Proof.
  intros Hwf. induction steps as [|st steps IH] using rev_ind; [done|].
  rewrite run_steps_snoc. eapply stable_wf; [apply stable_run_step | done].
Qed.

(** Whatever the application calls and whatever the environment does,
    the instance stays as the constructor left it: the seven subscribers
    are distinct objects of the store and each message is handled by the
    publisher of its own subscriber. *)
Theorem reachable_wf steps σ0 up incoming :
  wf (run_steps steps (__init__ σ0 up incoming)).
Proof. apply run_steps_wf, wf_init. Qed.





(** ** Objects of the store that are not the instance's *)

Lemma Subscriber_new_keeps σ l σ' l' x :
  Subscriber_new σ = (l, σ') → σ !! l' = Some x →
  σ' !! l' = Some x ∧ l ≠ l'.
Proof.
  intros Hnew Hx.
  destruct (Subscriber_new_spec _ _ _ Hnew) as [_ Hold].
  destruct (Hold l') as [Hne _]; [by eexists|].
  split; [|done].
  unfold Subscriber_new in Hnew. injection Hnew as <- <-.
  by rewrite lookup_insert_ne.
Qed.

Lemma init_keeps σ0 up incoming l x :
  σ0 !! l = Some x →
  heap (__init__ σ0 up incoming) !! l = Some x ∧
  ∀ t, l ≠ sub_of t (self (__init__ σ0 up incoming)).
Proof.
  intros Hx. unfold __init__.
  destruct (Subscriber_new σ0) as [l1 σ1] eqn:E1.
  destruct (Subscriber_new σ1) as [l2 σ2] eqn:E2.
  destruct (Subscriber_new σ2) as [l3 σ3] eqn:E3.
  destruct (Subscriber_new σ3) as [l4 σ4] eqn:E4.
  destruct (Subscriber_new σ4) as [l5 σ5] eqn:E5.
  destruct (Subscriber_new σ5) as [l6 σ6] eqn:E6.
  destruct (Subscriber_new σ6) as [l7 σ7] eqn:E7.
  destruct (Subscriber_new_keeps _ _ _ _ _ E1 Hx) as [H1 N1].
  destruct (Subscriber_new_keeps _ _ _ _ _ E2 H1) as [H2 N2].
  destruct (Subscriber_new_keeps _ _ _ _ _ E3 H2) as [H3 N3].
  destruct (Subscriber_new_keeps _ _ _ _ _ E4 H3) as [H4 N4].
  destruct (Subscriber_new_keeps _ _ _ _ _ E5 H4) as [H5 N5].
  destruct (Subscriber_new_keeps _ _ _ _ _ E6 H5) as [H6 N6].
  destruct (Subscriber_new_keeps _ _ _ _ _ E7 H6) as [H7 N7].
  split; [done|]. intros t. destruct t; simpl; congruence.
Qed.

(** A subscriber object that existed before the instance was made is
    never touched by it: the constructor, every method call and every
    dispatch of received messages leave it exactly as it was. *)
Theorem foreign_subscriber_untouched steps σ0 up incoming l x :
  σ0 !! l = Some x →
  heap (run_steps steps (__init__ σ0 up incoming)) !! l = Some x.
Proof.
  intros Hx.
  assert (Hinv : heap (run_steps steps (__init__ σ0 up incoming)) !! l = Some x
                 ∧ ∀ t, l ≠ sub_of t
                            (self (run_steps steps (__init__ σ0 up incoming))));
    [|by destruct Hinv].
  induction steps as [|st steps IH] using rev_ind.
  - by apply init_keeps.
  - rewrite run_steps_snoc.
    pose proof (run_steps_wf steps _ (wf_init σ0 up incoming)) as Hwf.
    set (s := run_steps steps (__init__ σ0 up incoming)) in *.
    destruct IH as [Hl Hne].
    destruct (stable_run_step st s) as (Hsub & _ & _).
    split; [|intros t; rewrite Hsub; apply Hne].
    destruct Hwf as [Hd _ Hw].
    destruct st; simpl.
    + destruct (run_call_heap c s) as [-> | ->]; [done|].
      by rewrite (pump_outside _ _ Hw).
    + by rewrite (pump_outside _ _ Hw).
    + done.
    + done.
Qed.

Lemma foreign_subscriber_untouched_witness :
  heap (run_steps
          [Incoming [(ATTITUDE_RADIANS, [1%float; 2%float; 3%float])];
           Call (do_getter (call_get_attitude true))]
          (__init__ {[ 0%nat := mkSubscriber (Some [5%float]) 3 ]} true []))
    !! 0%nat
  = Some (mkSubscriber (Some [5%float]) 3).
Proof.
  apply foreign_subscriber_untouched.
  apply lookup_singleton_eq.
Defined.

(** ** What the getters return *)

Lemma position_board_connected_fetch s :
  position_board_connected s =
  (v ← fetch POSITION_BOARD_CONNECTED; mret (py_bool v)) s.
Proof.
  unfold position_board_connected, fetch, mbind, M_bind, this.
  destruct (_send_data _ s) as [[e|[]] s1]; [done|].
  by destruct (get_value _ s1) as [[e|v] s2].
Qed.

Lemma get_firmware_version_fetch s :
  get_firmware_version s =
  (v ← fetch FIRMWARE_VERSION; lift (py_getitem v 0)) s.
Proof.
  unfold get_firmware_version, fetch, mbind, M_bind, this.
  destruct (_send_data _ s) as [[e|[]] s1]; [done|].
  by destruct (get_value _ s1) as [[e|v] s2].
Qed.

Lemma py_getitem_head {A} (l : list A) :
  py_getitem l 0 = match l with x :: _ => inr x | [] => inl IndexError end.
Proof.
  destruct l as [|x l]; [done|].
  apply py_getitem_lookup; [lia | done].
Qed.

(** [position_board_connected] applies [bool] to the whole reply tuple
    and not to its field: for every reply that has a field it returns
    [True], whatever status the field carries. *)
Theorem position_board_connected_ignores_status s status rest :
  wf s → link_up s = true →
  last (values_of POSITION_BOARD_CONNECTED (inbox s)) = Some (status :: rest) →
  (position_board_connected s).1 = inr true.
Proof.
  intros Hwf Hup Hlast.
  pose proof (fetch_result POSITION_BOARD_CONNECTED s Hwf) as Hres.
  rewrite Hup, Hlast in Hres.
  rewrite position_board_connected_fetch. unfold mbind, M_bind, mret, M_ret.
  destruct (fetch POSITION_BOARD_CONNECTED s) as [[e|v] s1]; simpl in *;
    [done|].
  by injection Hres as ->.
Qed.

Lemma position_board_connected_ignores_status_witness :
  (position_board_connected
     (__init__ ∅ true [(POSITION_BOARD_CONNECTED, [0%float])])).1 = inr true.
Proof.
  apply (position_board_connected_ignores_status
           (__init__ ∅ true [(POSITION_BOARD_CONNECTED, [0%float])])
           0%float [] (wf_init _ _ _) eq_refl eq_refl).
Defined.

(** The getters without a conversion return the last reply received
    during the wait as it is, whatever its length; [get_firmware_version]
    returns the first field of the last reply and raises [IndexError]
    when the reply has no field. *)
Theorem getters_return_last_reply s v :
  wf s → link_up s = true →
  (last (values_of GET_VELOCITIES (inbox s)) = Some v →
   (get_velocities s).1 = inr v) ∧
  (last (values_of GET_MOTOR_NORMAL (inbox s)) = Some v →
   (get_motors s).1 = inr v) ∧
  (last (values_of GET_PID_CONSTANTS (inbox s)) = Some v →
   (get_PID s).1 = inr v) ∧
  (last (values_of FIRMWARE_VERSION (inbox s)) = Some v →
   (get_firmware_version s).1
   = match v with x :: _ => inr x | [] => inl IndexError end).
Proof.
  intros Hwf Hup.
  assert (Hf : ∀ t, last (values_of t (inbox s)) = Some v →
                    (fetch t s).1 = inr v).
  { intros t Hlast. by rewrite fetch_result, Hup, Hlast. }
  split; [|split; [|split]]; intros Hlast.
  - exact (Hf GET_VELOCITIES Hlast).
  - exact (Hf GET_MOTOR_NORMAL Hlast).
  - exact (Hf GET_PID_CONSTANTS Hlast).
  - specialize (Hf FIRMWARE_VERSION Hlast).
    rewrite get_firmware_version_fetch. unfold mbind, M_bind, lift.
    destruct (fetch FIRMWARE_VERSION s) as [[e|w] s1]; simpl in *; [done|].
    injection Hf as ->. apply py_getitem_head.
Qed.

Lemma getters_return_last_reply_witness :
  (get_velocities
     (__init__ ∅ true
        [(GET_VELOCITIES, [1%float; 2%float; 3%float]);
         (GET_VELOCITIES, [0.5%float; 0.25%float; 0%float])])).1
  = inr [0.5%float; 0.25%float; 0%float].
Proof.
  destruct (getters_return_last_reply
              (__init__ ∅ true
                 [(GET_VELOCITIES, [1%float; 2%float; 3%float]);
                  (GET_VELOCITIES, [0.5%float; 0.25%float; 0%float])])
              [0.5%float; 0.25%float; 0%float] (wf_init _ _ _) eq_refl)
    as [Hvel _].
  apply Hvel. vm_compute. reflexivity.
Defined.

(** A getter whose request the transport refuses fails with [IOError]
    without waiting: no subscriber is read or changed, the pending
    replies are not consumed, and the instance is as it was. *)
Theorem getter_fails_without_waiting g s :
  link_up s = false →
  (run_getter g s).1 = inl IOError ∧
  trace (run_getter g) s = [SendData (request_frame (telemetry_of g))] ∧
  heap (run_getter g s).2 = heap s ∧
  inbox (run_getter g s).2 = inbox s ∧
  self (run_getter g s).2 = self s.
Proof.
  intros Hdown. split; [|split].
  - by rewrite run_getter_result, fetch_eq, Hdown.
  - by rewrite run_getter_trace, Hdown.
  - by rewrite run_getter_state, fetch_state, Hdown.
Qed.

Lemma getter_fails_without_waiting_witness :
  (run_getter call_get_voltage
     (__init__ ∅ false [(GET_BATTERY_VOLTAGE, [7.4%float])])).1
  = inl IOError.
Proof.
  destruct (getter_fails_without_waiting call_get_voltage
              (__init__ ∅ false [(GET_BATTERY_VOLTAGE, [7.4%float])])
              eq_refl) as [Hres _].
  exact Hres.
Defined.

(** ** PID constants *)

(** [set_PID] sends the nineteen constants in the order of its
    parameters and caches them in that order; the other caches are left
    as they were, and no getter, [get_PID] included, returns anything
    else afterwards than it would have returned before. *)
Theorem set_PID_sends_constants k1 k2 k3 k4 k5 k6 k7 k8 k9 k10 k11 k12 k13
    k14 k15 k16 k17 k18 k19 s :
  let s' := (set_PID k1 k2 k3 k4 k5 k6 k7 k8 k9 k10 k11 k12 k13 k14 k15 k16
               k17 k18 k19 s).2 in
  trace (set_PID k1 k2 k3 k4 k5 k6 k7 k8 k9 k10 k11 k12 k13 k14 k15 k16 k17
           k18 k19) s
    = [SendData (serialize_SET_PID_CONSTANTS k1 k2 k3 k4 k5 k6 k7 k8 k9 k10
                   k11 k12 k13 k14 k15 k16 k17 k18 k19)] ∧
  __controller_constants (self s')
    = [k1; k2; k3; k4; k5; k6; k7; k8; k9; k10; k11; k12; k13; k14; k15; k16;
       k17; k18; k19] ∧
  __motor_values (self s') = __motor_values (self s) ∧
  __led_status (self s') = __led_status (self s) ∧
  __voltage (self s') = __voltage (self s) ∧
  ∀ g, (run_getter g s').1 = (run_getter g s).1.
Proof.
  intros s'. unfold s'. split; [|split; [|split; [|split; [|split]]]].
  - apply trace_app. by rewrite set_PID_state.
  - by rewrite set_PID_state.
  - by rewrite set_PID_state.
  - by rewrite set_PID_state.
  - by rewrite set_PID_state.
  - intros g. rewrite !run_getter_result, set_PID_state.
    by rewrite (fetch_result_same _ s).
Qed.

(** ** Which call assigns which cache *)

Lemma same_caches_refl k m : same_caches_but k m m.
Proof. by repeat split. Qed.

(** Each cached attribute is assigned only by its own setters: a call
    leaves every cache it is not the setter of as it was, whether it
    returns or raises. *)
Theorem cache_assigned_by_own_setter c s :
  same_caches_but (assigned_by c) (self s) (self (run_call c s)).
Proof.
  destruct c; simpl.
  - destruct (run_getter_effect g s) as (-> & _). apply same_caches_refl.
  - destruct (run_command_send c s) as [f ->]. rewrite send_data_eq.
    apply same_caches_refl.
  - match goal with
    | |- context [set_motor ?m ?x s] =>
        destruct (set_motor_effect m x s) as ([-> | [vs ->]] & _)
    end; by repeat split.
  - destruct (set_motors_effect values s) as (-> & _). by repeat split.
  - rewrite set_voltage_state. by repeat split.
  - rewrite get_motor_state.
    destruct (run_getter_effect call_get_motors s) as (Hs & _).
    simpl in Hs. unfold mbind, M_bind in Hs.
    destruct (get_motors s) as [[e|v] s1]; simpl in *; rewrite Hs;
      apply same_caches_refl.
  - rewrite set_PID_state. by repeat split.
  - destruct (set_leds_effect red green blue s) as ([-> | [st ->]] & _);
      by repeat split.
Qed.
